(** * India crime dashboard: name reconciliation pipeline and data preparation

    A shallow embedding of [app/streamlit_app.py] (text normalisation, alias
    table, state-key detection on GeoJSON properties, column detection on the
    uploaded table, group-by aggregation, reconciliation with the boundary
    regions, the scale of the elevation and the rows of the table) and of
    [utils/data_prep.py] (schema validation on load, derived percentage
    column).

    Python [str] values are sequences of Unicode code points.  What the
    program takes from the Unicode character database and from the number
    parsers of Python and pandas is gathered in the class [PyLib], the casts
    and the arithmetic of pandas columns in the class [PandasLib]: the
    program is verified for every such library that obeys the stated laws. *)

From Stdlib Require Import Ascii String QArith Qcanon.
From stdpp Require Import base numbers list strings pretty gmap sets sorting.

Local Open Scope N_scope.

(** ** Python strings *)

Abbreviation pystr := (list N).

(** The code points of an ASCII literal of this file. *)
Definition py (s : string) : pystr :=
  (λ a : ascii, N_of_ascii a) <$> list_ascii_of_string s.

(** [str.isspace] for one code point: the white-space code points of
    CPython's [_PyUnicode_IsWhitespace]. *)
Definition isspace (c : N) : bool :=
  ((9 <=? c) && (c <=? 13)) || ((28 <=? c) && (c <=? 32))
  || (c =? 133) || (c =? 160) || (c =? 5760)
  || ((8192 <=? c) && (c <=? 8202))
  || (c =? 8232) || (c =? 8233) || (c =? 8239) || (c =? 8287) || (c =? 12288).

(** [s.lstrip()], [s.rstrip()] and [s.strip()] with no argument. *)
Fixpoint lstrip (s : pystr) : pystr :=
  match s with
  | c :: s' => if isspace c then lstrip s' else s
  | [] => []
  end.

Definition rstrip (s : pystr) : pystr := reverse (lstrip (reverse s)).

Definition strip (s : pystr) : pystr := rstrip (lstrip s).

(** [s.replace(old, new)] for a pattern [old] of one code point. *)
Definition replace1 (old : N) (new : pystr) (s : pystr) : pystr :=
  c ← s; if (c =? old) then new else [c].

(** [s.split()] with no argument: the maximal runs of code points that are
    not white space.  [split_go s] is the run that starts at the head of [s]
    (empty when [s] starts with white space) and the runs after it. *)
Definition cons_word (w : pystr) (ws : list pystr) : list pystr :=
  match w with [] => ws | _ => w :: ws end.

Fixpoint split_go (s : pystr) : pystr * list pystr :=
  match s with
  | [] => ([], [])
  | c :: s' =>
      let '(w, ws) := split_go s' in
      if isspace c then ([], cons_word w ws) else (c :: w, ws)
  end.

Definition split (s : pystr) : list pystr :=
  let '(w, ws) := split_go s in cons_word w ws.

(** [sep.join(ws)]. *)
Fixpoint join (sep : pystr) (ws : list pystr) : pystr :=
  match ws with
  | [] => []
  | [w] => w
  | w :: ws' => w ++ sep ++ join sep ws'
  end.

(** [sub in s] for strings. *)
Fixpoint is_prefix (p s : pystr) : bool :=
  match p, s with
  | [], _ => true
  | a :: p', b :: s' => (a =? b) && is_prefix p' s'
  | _ :: _, [] => false
  end.

Fixpoint contains (sub s : pystr) : bool :=
  is_prefix sub s || match s with [] => false | _ :: s' => contains sub s' end.

(** [str.lower] on one ASCII code point. *)
Definition lower_ascii (c : N) : N :=
  if (65 <=? c) && (c <=? 90) then c + 32 else c.

(** Comparison of strings, code point by code point, as [sorted] uses it. *)
Fixpoint str_leb (s t : pystr) : bool :=
  match s, t with
  | [], _ => true
  | _ :: _, [] => false
  | a :: s', b :: t' =>
      if a <? b then true else if a =? b then str_leb s' t' else false
  end.

Definition str_le (s t : pystr) : Prop := str_leb s t = true.

Global Instance str_le_dec s t : Decision (str_le s t).
Proof. unfold str_le. apply _. Defined.

(** ** Python numbers *)

(** A [float]: a rational, an infinity or NaN.  Rounding and overflow of
    binary64 are not modelled. *)
Inductive float :=
  | FNaN
  | FInf (negative : bool)
  | FFin (q : Qc).

Global Instance float_eq_dec : EqDecision float.
Proof. solve_decision. Defined.

Definition fadd (x y : float) : float :=
  match x, y with
  | FNaN, _ | _, FNaN => FNaN
  | FInf a, FInf b => if bool_decide (a = b) then FInf a else FNaN
  | FInf a, FFin _ | FFin _, FInf a => FInf a
  | FFin p, FFin q => FFin (p + q)%Qc
  end.

Definition float_of_Z (z : Z) : float := FFin (Qc_of_Z z).

Definition fzero : float := float_of_Z 0.

(** [0 <= x] on floats (false for NaN). *)
Definition fnonneg (x : float) : Prop :=
  match x with
  | FNaN => False
  | FInf negative => negative = false
  | FFin q => (0 ≤ q)%Qc
  end.

(** A Python scalar, as a cell of a table or a JSON property holds it. *)
Inductive scalar :=
  | SNone
  | SBool (b : bool)
  | SInt (z : Z)
  | SFloat (x : float)
  | SStr (s : pystr).

Global Instance scalar_eq_dec : EqDecision scalar.
Proof. solve_decision. Defined.

(** [pd.isna] on a scalar. *)
Definition isna (v : scalar) : bool :=
  match v with SNone | SFloat FNaN => true | _ => false end.

(** ** The library tables *)

Class PyLib := {
  (** Full compatibility decomposition of one code point (NFKD, before the
      reordering of combining marks). *)
  decomposition : N → pystr;
  (** [str.lower]. *)
  str_lower : pystr → pystr;
  (** [str.isalpha] on one code point. *)
  isalpha : N → bool;
  (** [repr] of a float, which [str] returns for it. *)
  float_repr : float → pystr;
  (** Whether [pd.to_numeric] accepts a text cell. *)
  parses_numeric : pystr → bool;
  (** [float(s)] on a string; [None] when it raises [ValueError]. *)
  float_of_str : pystr → option float;
  decomposition_ascii c : c < 128 → decomposition c = [c];
  str_lower_ascii s : Forall (λ c, c < 128) s → str_lower s = lower_ascii <$> s;
  parses_numeric_digits s :
    s ≠ [] → Forall (λ c, 48 ≤ c ≤ 57) s → parses_numeric s = true;
}.

(** ** Exceptions *)

(** A constraint of a pandera [Check]: [Check.ge(bound)]. *)
Inductive check := Ge (bound : Z).

(** One failure that pandera's validation reports, with the column. *)
Inductive schema_error :=
  | ColumnNotInDataframe (c : pystr)
  | CoercionFailed (c : pystr)
  | WrongDtype (c : pystr)
  | NotNullable (c : pystr)
  | CheckFailed (c : pystr) (chk : check).

Inductive exn :=
  | KeyError
  | IndexError
  | ValueError
  | TypeError
  | AttributeError
  | ZeroDivisionError
  | OSError
  | SchemaError (err : schema_error)
  | SchemaErrors (errs : list schema_error).

Inductive result (A : Type) :=
  | Ok (a : A)
  | Raise (e : exn).
Arguments Ok {A} a.
Arguments Raise {A} e.

Global Instance result_ret : MRet result := @Ok.

Global Instance result_bind : MBind result := λ A B k r,
  match r with Ok a => k a | Raise e => Raise e end.

(** ** Python dictionaries, in insertion order *)

Abbreviation dict V := (list (pystr * V)).

Fixpoint dict_get {V} (k : pystr) (d : dict V) : option V :=
  match d with
  | [] => None
  | (k', v) :: d' => if decide (k' = k) then Some v else dict_get k d'
  end.

(** [d[k] = v]: the value is replaced where the key stands, a new key goes
    to the end. *)
Fixpoint dict_set {V} (k : pystr) (v : V) (d : dict V) : dict V :=
  match d with
  | [] => [(k, v)]
  | (k', v') :: d' =>
      if decide (k' = k) then (k, v) :: d' else (k', v') :: dict_set k v d'
  end.

Definition dict_keys {V} (d : dict V) : list pystr := d.*1.

(** A JSON value of a feature's properties: a scalar, or a list or an object,
    which is given by the text that [str] returns for it (the program takes
    nothing else of a property value). *)
Inductive json :=
  | JScalar (v : scalar)
  | JOther (text : pystr).

Abbreviation feature := (dict json).

(** ** Tables (pandas)

    A column has one dtype.  [read_csv] gives a column of numbers the dtype
    int64, or float64 when a value is missing; a column that holds any text
    the dtype object, with the cells left as the text read.  The cells of an
    int64 column are integers; a sum of them is taken in int64, where it
    wraps around ([wrap_int64]). *)

Inductive series :=
  | IntCol (xs : list Z)
  | FloatCol (xs : list float)
  | BoolCol (xs : list bool)
  | ObjectCol (xs : list scalar).

(** The columns of a frame, in order, under their headers (which [read_csv]
    makes distinct). *)
Abbreviation DataFrame := (dict series).

(** [df[c]]. *)
Definition df_get (c : pystr) (df : DataFrame) : result series :=
  match dict_get c df with Some col => Ok col | None => Raise KeyError end.

Definition is_object (col : series) : bool :=
  match col with ObjectCol _ => true | _ => false end.

(** Membership in [select_dtypes(include=["number"])]: bool is no number. *)
Definition is_number (col : series) : bool :=
  match col with IntCol _ | FloatCol _ => true | _ => false end.

(** The cells of a column as Python values. *)
Definition cells (col : series) : list scalar :=
  match col with
  | IntCol xs => SInt <$> xs
  | FloatCol xs => SFloat <$> xs
  | BoolCol xs => SBool <$> xs
  | ObjectCol xs => xs
  end.

(** The rows of a column that a boolean mask keeps. *)
Fixpoint rows_where {A} (mask : list bool) (xs : list A) : list A :=
  match mask, xs with
  | b :: mask', x :: xs' =>
      if b then x :: rows_where mask' xs' else rows_where mask' xs'
  | _, _ => []
  end.

Definition select_rows (mask : list bool) (col : series) : series :=
  match col with
  | IntCol xs => IntCol (rows_where mask xs)
  | FloatCol xs => FloatCol (rows_where mask xs)
  | BoolCol xs => BoolCol (rows_where mask xs)
  | ObjectCol xs => ObjectCol (rows_where mask xs)
  end.

Definition sum_Z (xs : list Z) : Z := foldr Z.add 0%Z xs.

(** The int64 that the two's complement arithmetic of numpy gives for the
    integer [z]: [z] itself from -2^63 to 2^63 - 1, and wrapped around
    outside. *)
Definition wrap_int64 (z : Z) : Z := ((z + 2 ^ 63) `mod` 2 ^ 64 - 2 ^ 63)%Z.

Definition sum_float (xs : list float) : float := foldr fadd fzero xs.

(** Python's [a + b] on scalars. *)
Definition as_int (v : scalar) : option Z :=
  match v with SBool b => Some (Z.b2z b) | SInt z => Some z | _ => None end.

Definition as_float (v : scalar) : option float :=
  match v with
  | SBool b => Some (float_of_Z (Z.b2z b))
  | SInt z => Some (float_of_Z z)
  | SFloat x => Some x
  | _ => None
  end.

Definition py_add (a b : scalar) : result scalar :=
  match a, b with
  | SStr s, SStr t => Ok (SStr (s ++ t))
  | _, _ =>
      match as_int a, as_int b with
      | Some x, Some y => Ok (SInt (x + y))
      | _, _ =>
          match as_float a, as_float b with
          | Some x, Some y => Ok (SFloat (fadd x y))
          | _, _ => Raise TypeError
          end
      end
  end.

(** The sum of one group in [groupby(...).sum()]: an int64 or bool column is
    summed in int64; missing values are skipped; an object column is summed
    with Python's [+], the first value taken as it is, and an empty sum is
    0. *)
Definition group_sum (col : series) : result scalar :=
  match col with
  | IntCol xs => Ok (SInt (wrap_int64 (sum_Z xs)))
  | FloatCol xs =>
      Ok (SFloat (sum_float (filter (λ x, x ≠ FNaN) xs)))
  | BoolCol xs => Ok (SInt (wrap_int64 (sum_Z (Z.b2z <$> xs))))
  | ObjectCol xs =>
      match filter (λ v, isna v = false) xs with
      | [] => Ok (SInt 0)
      | v :: vs => foldl (λ acc x, a ← acc; py_add a x) (Ok v) vs
      end
  end.

(** [s.isna().any()]. *)
Definition has_na (col : series) : bool :=
  existsb isna (cells col).

(** What [data_prep.py] takes from pandas and numpy: the casts to int64 and
    float64 ([None] when the cast raises) and the arithmetic of a Series. *)
Class PandasLib := {
  astype_int : series → option (list Z);
  astype_float : series → option (list float);
  (** [s.sum()]. *)
  series_sum : series → result scalar;
  (** [s / x] and [s * x] for a scalar [x]. *)
  series_truediv : series → scalar → result series;
  series_mul : series → scalar → result series;
  astype_int_int xs : astype_int (IntCol xs) = Some xs;
}.

(** [dict(zip(keys, values))]: a later pair overrides an earlier one. *)
Definition dict_zip {V} (kvs : list (pystr * V)) : gmap pystr V :=
  foldl (λ m kv, <[kv.1 := kv.2]> m) ∅ kvs.

(** [sorted(xs)] on strings. *)
Definition sorted (xs : list pystr) : list pystr := merge_sort str_le xs.

(** What the run shows with [st.error] before [st.stop()] ends it. *)
Inductive failure :=
  | UnreadableCsv
  | MissingNameColumn
  | MissingMetricColumn.

Section App.
Context `{PyLib}.

(** [str(v)]. *)
Definition py_str (v : scalar) : pystr :=
  match v with
  | SNone => py "None"
  | SBool true => py "True"
  | SBool false => py "False"
  | SInt z => py (pretty z)
  | SFloat x => float_repr x
  | SStr s => s
  end.

Definition json_str (v : json) : pystr :=
  match v with JScalar v => py_str v | JOther text => text end.

(** *** Helper utilities (streamlit_app.py, lines 20-58) *)

(** [unicodedata.normalize("NFKD", s).encode("ascii", "ignore").decode("utf-8")].
    The reordering of combining marks that completes NFKD moves no ASCII
    code point, and every other code point is dropped by the encoding. *)
Definition ascii_fold (s : pystr) : pystr :=
  filter (λ c, c < 128) (s ≫= decomposition).

Definition normalize_text (s : scalar) : pystr :=
  if isna s then []
  else
    let s := py_str s in
    let s := ascii_fold s in
    let s := strip s in
    let s := replace1 38 (py "and") s in
    let s := join [32] (split s) in
    str_lower s.

Definition COMMON_NAME_MAP : dict pystr := [
  (py "odisha", py "orissa");
  (py "uttarakhand", py "uttaranchal");
  (py "pondicherry", py "puducherry");
  (py "puducherry", py "puducherry");
  (py "nct of delhi", py "delhi");
  (py "delhi (nct)", py "delhi");
  (py "andaman & nicobar islands", py "andaman and nicobar");
  (py "andaman and nicobar islands", py "andaman and nicobar");
  (py "dadra & nagar haveli and daman & diu",
   py "dadra and nagar haveli and daman and diu");
  (py "dadra and nagar haveli and daman and diu",
   py "dadra and nagar haveli and daman and diu")
].

Definition apply_common_map (name : scalar) : pystr :=
  let n := normalize_text name in
  default n (dict_get n COMMON_NAME_MAP).

Definition preferred_keys : list pystr :=
  [py "name_1"; py "name"; py "st_nm"; py "st_name"; py "state"; py "state_name"].

(** The test of line 56 on [str(v)]. *)
Definition plausible_name (sval : pystr) : bool :=
  bool_decide (2 < length sval < 40)%nat
  && forallb (λ ch, isalpha ch || isspace ch || contains [ch] (py "&-")) sval.

(** The loop of lines 49-53 over the candidates that are left. *)
Fixpoint preferred_match (cands : list pystr) (props : dict json) : option pystr :=
  match cands with
  | [] => None
  | cand :: cands' =>
      if bool_decide (cand ∈ str_lower <$> dict_keys props) then
        match list_find (λ k, str_lower k = cand) (dict_keys props) with
        | Some (_, k) => Some k
        | None => preferred_match cands' props
        end
      else preferred_match cands' props
  end.

Definition detect_state_key_from_props (props : dict json) : result pystr :=
  match preferred_match preferred_keys props with
  | Some k => Ok k
  | None =>
      match list_find (λ kv, plausible_name (json_str kv.2) = true) props with
      | Some (_, (k, _)) => Ok k
      | None =>
          match dict_keys props with
          | k :: _ => Ok k
          | [] => Raise IndexError
          end
      end
  end.

(** *** The boundary regions (lines 100-109) *)

Definition state_raw_key : pystr := py "__state_raw".
Definition state_norm_key : pystr := py "__state_norm".
Definition metric_value_key : pystr := py "metric_value".

(** The body of the loop of lines 103-107 on one feature's properties. *)
Definition annotate_feature (state_prop_key : pystr) (props : feature) : feature :=
  let raw_name :=
    strip (json_str (default (JScalar (SStr [])) (dict_get state_prop_key props))) in
  let norm := apply_common_map (SStr raw_name) in
  let props := dict_set state_raw_key (JScalar (SStr raw_name)) props in
  dict_set state_norm_key (JScalar (SStr norm)) props.

(** Lines 100-107 on features that all have an object of properties. *)
Definition annotate_features (feats : list feature) : result (list feature) :=
  match feats with
  | [] => Raise IndexError
  | sample_props :: _ =>
      state_prop_key ← detect_state_key_from_props sample_props;
      Ok (annotate_feature state_prop_key <$> feats)
  end.

(** Lines 100-107 on the features of a GeoJSON file, where the properties of
    a feature may be [null]: [None] has no [keys] (line 48, for the first
    feature) and no [get] (line 104). *)
Definition annotate_geojson (features : list (option feature))
    : result (list feature) :=
  match features with
  | [] => Raise IndexError
  | None :: _ => Raise AttributeError
  | Some sample_props :: _ =>
      state_prop_key ← detect_state_key_from_props sample_props;
      mapM (λ properties,
              match properties with
              | Some props => Ok (annotate_feature state_prop_key props)
              | None => Raise AttributeError
              end) features
  end.

(** [feat["properties"]["__state_norm"]] as a member of a set of names or a
    key of [state_to_value]: a value that is no string is equal to no name,
    and a list or an object cannot be hashed. *)
Definition norm_of (feat : feature) : result (option pystr) :=
  match dict_get state_norm_key feat with
  | None => Raise KeyError
  | Some (JScalar (SStr n)) => Ok (Some n)
  | Some (JScalar _) => Ok None
  | Some (JOther _) => Raise TypeError
  end.

(** *** Column detection on the uploaded table (lines 129-153) *)

Definition state_candidates (df_raw : DataFrame) : list pystr :=
  filter (λ c, contains (py "state") (str_lower c) = true
               ∨ contains (py "ut") (str_lower c) = true) (dict_keys df_raw).

Definition object_cols (df_raw : DataFrame) : list pystr :=
  (filter (λ ccol, is_object ccol.2 = true) df_raw).*1.

Definition detect_state_col (df_raw : DataFrame) : option pystr :=
  match state_candidates df_raw with
  | state_col :: _ => Some state_col
  | [] =>
      match object_cols df_raw with
      | state_col :: _ => Some state_col
      | [] => None
      end
  end.

(** Whether [pd.to_numeric] accepts one value of an object or bool column. *)
Definition numeric_value (v : scalar) : bool :=
  match v with SStr s => parses_numeric s | _ => true end.

(** Whether [pd.to_numeric(df_raw[c].dropna().iloc[:20])] returns. *)
Definition to_numeric_probe (col : series) : bool :=
  forallb numeric_value (take 20 (filter (λ v, isna v = false) (cells col))).

Definition numeric_cols (df_raw : DataFrame) : list pystr :=
  foldl (λ numeric_cols ccol,
           if bool_decide (ccol.1 ∈ numeric_cols) then numeric_cols
           else if to_numeric_probe ccol.2 then numeric_cols ++ [ccol.1]
           else numeric_cols)
        (filter (λ ccol, is_number ccol.2 = true) df_raw).*1 df_raw.

(** Lines 129-153: the failures shown, and the state column with the metric
    candidates unless [st.stop()] ended the run. *)
Definition select_columns (df_raw : DataFrame)
    : list failure * option (pystr * list pystr) :=
  match detect_state_col df_raw with
  | None => ([MissingNameColumn], None)
  | Some state_col =>
      match numeric_cols df_raw with
      | [] => ([MissingMetricColumn], None)
      | cols => ([], Some (state_col, cols))
      end
  end.

(** Lines 114-153 on the upload, [None] or the text of a file; [read_csv] is
    what [pd.read_csv] gives for the text.  Without an upload the run stops
    with a hint, which is no failure; an exception of the reading, whatever it
    is, is shown and stops the run; the columns of a table that was read are
    detected as above. *)
Definition detect_columns (read_csv : pystr → result DataFrame)
    (uploaded : option pystr)
    : list failure * option (DataFrame * (pystr * list pystr)) :=
  match uploaded with
  | None => ([], None)
  | Some text =>
      match read_csv text with
      | Raise _ => ([UnreadableCsv], None)
      | Ok df_raw =>
          let '(failures, cols) := select_columns df_raw in
          (failures, pair df_raw <$> cols)
      end
  end.

(** *** Aggregation (lines 160-165) *)

(** [df[state_col].astype(str).str.strip()]. *)
Definition state_raw (col : series) : list pystr :=
  (λ v, strip (py_str v)) <$> cells col.

(** The rows of [df_agg]: one per canonical name, in sorted order, with the
    sum of the metric over the rows of that name. *)
Definition groupby_sum (norms : list pystr) (metric : series)
    : result (list (pystr * scalar)) :=
  mapM (λ k, v ← group_sum (select_rows ((λ n, bool_decide (n = k)) <$> norms) metric);
             Ok (k, v))
       (sorted (remove_dups norms)).

Definition aggregate (df_raw : DataFrame) (state_col metric_col : pystr)
    : result (list (pystr * scalar)) :=
  names ← df_get state_col df_raw;
  let raw := state_raw names in
  let df := dict_set state_raw_key (ObjectCol (SStr <$> raw)) df_raw in
  let norms := (λ s, apply_common_map (SStr s)) <$> raw in
  let df := dict_set state_norm_key (ObjectCol (SStr <$> norms)) df in
  (* the sums of the key column itself are renamed to "metric_value" on line
     164, and line 165 finds no column "__state_norm" in [df_agg] *)
  if decide (metric_col = state_norm_key) then Raise KeyError
  else
    metric ← df_get metric_col df;
    groupby_sum norms metric.

(** *** Reconciliation (lines 165-175) *)

(** [float(v)]. *)
Definition py_float (v : scalar) : result float :=
  match v with
  | SNone => Raise TypeError
  | SBool b => Ok (float_of_Z (Z.b2z b))
  | SInt z => Ok (float_of_Z z)
  | SFloat x => Ok x
  | SStr s =>
      match float_of_str s with Some x => Ok x | None => Raise ValueError end
  end.

Definition geo_norm_set (feats : list feature) : result (gset pystr) :=
  norms ← mapM norm_of feats;
  Ok (list_to_set (omap id norms)).

(** The body of the loop of lines 173-175. *)
Definition set_metric (state_to_value : gmap pystr scalar) (feat : feature)
    : result feature :=
  norm ← norm_of feat;
  x ← py_float (default (SFloat fzero) (norm ≫= (state_to_value !!.)));
  Ok (dict_set metric_value_key (JScalar (SFloat x)) feat).

Definition reconcile (feats : list feature) (df_agg : list (pystr * scalar))
    : result (list feature * list pystr) :=
  geo ← geo_norm_set feats;
  let state_to_value := dict_zip df_agg in
  let csv_norm_set : gset pystr := list_to_set df_agg.*1 in
  let unmatched := sorted (elements (csv_norm_set ∖ geo)) in
  feats' ← mapM (set_metric state_to_value) feats;
  Ok (feats', unmatched).

End App.

(** ** utils/data_prep.py *)

(** *** The schema (lines 7-15) *)

Inductive dtype := DObject | DStr | DInt | DFloat.

(** [pandera.Column(dtype, checks, nullable=False)]; a column is required. *)
Record Column := {
  col_dtype : dtype;
  col_checks : list check;
  col_nullable : bool;
}.

Record DataFrameSchema := {
  schema_columns : dict Column;
  schema_coerce : bool;
}.

Definition SCHEMA : DataFrameSchema := {|
  schema_columns := [
    (py "Sl. No.", {| col_dtype := DObject; col_checks := []; col_nullable := true |});
    (py "State/UT", {| col_dtype := DStr; col_checks := []; col_nullable := false |});
    (py "2022", {| col_dtype := DInt; col_checks := [Ge 0]; col_nullable := false |});
    (py "percentage", {| col_dtype := DFloat; col_checks := []; col_nullable := true |})
  ];
  schema_coerce := true;
|}.

(** *** Frames as objects

    A frame is an object in a store, and a variable holds a reference to it:
    [df.copy()] makes a new object, [df[c] = s] changes the object in place. *)

Abbreviation ref := positive.
Abbreviation heap := (gmap positive DataFrame).

Definition prog (A : Type) : Type := heap → result A * heap.

Global Instance prog_ret : MRet prog := λ A a h, (Ok a, h).

Global Instance prog_bind : MBind prog := λ A B k m h,
  match m h with
  | (Ok a, h') => k a h'
  | (Raise e, h') => (Raise e, h')
  end.

Definition lift {A} (r : result A) : prog A := λ h, (r, h).

(** The frame a reference points to. *)
Definition deref (df : ref) : prog DataFrame := λ h,
  match h !! df with
  | Some d => (Ok d, h)
  | None => (Raise AttributeError, h)
  end.

(** A new object, and the update of one. *)
Definition alloc (d : DataFrame) : prog ref := λ h,
  let out := fresh (dom h) in (Ok out, <[out := d]> h).

Definition store (df : ref) (d : DataFrame) : prog unit := λ h,
  (Ok (), <[df := d]> h).

(** [df.copy()]: a new object with the same columns. *)
Definition df_copy (df : ref) : prog ref :=
  d ← deref df; alloc d.

(** [df[c]] and [df[c] = col] through a reference. *)
Definition getitem (df : ref) (c : pystr) : prog series :=
  d ← deref df; lift (df_get c d).

Definition setitem (df : ref) (c : pystr) (col : series) : prog unit :=
  d ← deref df; store df (dict_set c col d).

Section DataPrep.
Context `{PyLib} `{PandasLib}.

(** *** Validation (pandera, as [SCHEMA] uses it) *)

Definition dtype_matches (t : dtype) (col : series) : bool :=
  match t, col with
  | (DObject | DStr), ObjectCol _ => true
  | DInt, IntCol _ => true
  | DFloat, FloatCol _ => true
  | _, _ => false
  end.

(** The cast of a column to a dtype; [None] when it raises.  The cast to
    [str] leaves a missing value missing. *)
Definition coerce_series (t : dtype) (col : series) : option series :=
  match t with
  | DObject => Some (ObjectCol (cells col))
  | DStr => Some (ObjectCol ((λ v, if isna v then v else SStr (py_str v)) <$> cells col))
  | DInt => IntCol <$> astype_int col
  | DFloat => FloatCol <$> astype_float col
  end.

Definition check_holds (chk : check) (col : series) : bool :=
  match chk with
  | Ge bound =>
      forallb (λ v, match as_int v, as_float v with
                    | Some z, _ => bool_decide (bound ≤ z)%Z
                    | None, Some (FFin q) => bool_decide (Qc_of_Z bound ≤ q)%Qc
                    | None, Some (FInf negative) => negb negative
                    | None, _ => false
                    end)
              (filter (λ v, isna v = false) (cells col))
  end.

(** The frame with the columns of the schema cast to their dtypes, where the
    cast succeeds. *)
Definition coerced (schema : DataFrameSchema) (df : DataFrame) : DataFrame :=
  if schema_coerce schema then
    (λ ccol, match dict_get ccol.1 (schema_columns schema) with
             | Some spec => (ccol.1, default ccol.2 (coerce_series (col_dtype spec) ccol.2))
             | None => ccol
             end) <$> df
  else df.

Definition coercion_errors (schema : DataFrameSchema) (df : DataFrame)
    : list schema_error :=
  if schema_coerce schema then
    '(c, spec) ← schema_columns schema;
    match dict_get c df with
    | Some col =>
        match coerce_series (col_dtype spec) col with
        | Some _ => []
        | None => [CoercionFailed c]
        end
    | None => []
    end
  else [].

(** The failures of one column of the schema on a frame. *)
Definition column_errors (df : DataFrame) (c : pystr) (spec : Column)
    : list schema_error :=
  match dict_get c df with
  | None => [ColumnNotInDataframe c]
  | Some col =>
      (if dtype_matches (col_dtype spec) col then [] else [WrongDtype c])
      ++ (if has_na col && negb (col_nullable spec) then [NotNullable c] else [])
      ++ (chk ← col_checks spec;
          if check_holds chk col then [] else [CheckFailed c chk])
  end.

Definition schema_errors (schema : DataFrameSchema) (df : DataFrame)
    : list schema_error :=
  coercion_errors schema df
  ++ ('(c, spec) ← schema_columns schema; column_errors (coerced schema df) c spec).

(** [schema.validate(df, lazy)]: the cast frame when nothing fails;
    otherwise all failures together when [lazy], the first one when not. *)
Definition validate (schema : DataFrameSchema) (df : DataFrame) (lazy : bool)
    : result DataFrame :=
  match schema_errors schema df with
  | [] => Ok (coerced schema df)
  | err :: errs =>
      if lazy then Raise (SchemaErrors (err :: errs)) else Raise (SchemaError err)
  end.

(** *** [load_data] (lines 17-20); [read_csv] is what [pd.read_csv] gives for
    each path. *)
Definition load_data (read_csv : pystr → result DataFrame) (path : pystr)
    : result DataFrame :=
  df ← read_csv path;
  df ← validate SCHEMA df true;
  Ok df.

(** *** [ensure_percentage_column] (lines 22-27) *)
Definition ensure_percentage_column (df : ref) (year_col pct_col : pystr)
    : prog ref :=
  out ← df_copy df;
  d ← deref out;
  recompute ←
    (if bool_decide (pct_col ∉ dict_keys d) then mret true
     else col ← getitem out pct_col; mret (has_na col));
  if recompute : bool then
    year ← getitem out year_col;
    total ← lift (series_sum year);
    year ← getitem out year_col;
    ratio ← lift (series_truediv year total);
    pct ← lift (series_mul ratio (SFloat (FFin (Qc_of_Z 100))));
    _ ← setitem out pct_col pct;
    mret out
  else mret out.

End DataPrep.

(** ** A reference library

    One [PyLib] and one [PandasLib] on which the program can be run: the
    Unicode tables of U+0000 to U+00FF (a code point above is taken to have
    no decomposition, no case and no letter), decimal literals, and the
    arithmetic of numeric columns.  The examples below run on them. *)

Definition latin1_decompositions : list (N * pystr) := [
  (160, [32]); (168, [32; 776]); (170, [97]); (175, [32; 772]);
  (178, [50]); (179, [51]); (180, [32; 769]); (181, [956]);
  (184, [32; 807]); (185, [49]); (186, [111]);
  (188, [49; 8260; 52]); (189, [49; 8260; 50]); (190, [51; 8260; 52]);
  (192, [65; 768]); (193, [65; 769]); (194, [65; 770]); (195, [65; 771]);
  (196, [65; 776]); (197, [65; 778]); (199, [67; 807]);
  (200, [69; 768]); (201, [69; 769]); (202, [69; 770]); (203, [69; 776]);
  (204, [73; 768]); (205, [73; 769]); (206, [73; 770]); (207, [73; 776]);
  (209, [78; 771]);
  (210, [79; 768]); (211, [79; 769]); (212, [79; 770]); (213, [79; 771]);
  (214, [79; 776]);
  (217, [85; 768]); (218, [85; 769]); (219, [85; 770]); (220, [85; 776]);
  (221, [89; 769]);
  (224, [97; 768]); (225, [97; 769]); (226, [97; 770]); (227, [97; 771]);
  (228, [97; 776]); (229, [97; 778]); (231, [99; 807]);
  (232, [101; 768]); (233, [101; 769]); (234, [101; 770]); (235, [101; 776]);
  (236, [105; 768]); (237, [105; 769]); (238, [105; 770]); (239, [105; 776]);
  (241, [110; 771]);
  (242, [111; 768]); (243, [111; 769]); (244, [111; 770]); (245, [111; 771]);
  (246, [111; 776]);
  (249, [117; 768]); (250, [117; 769]); (251, [117; 770]); (252, [117; 776]);
  (253, [121; 769]); (255, [121; 776])
].

Definition latin1_decomposition (c : N) : pystr :=
  if c <? 160 then [c]
  else
    match list_find (λ e, e.1 = c) latin1_decompositions with
    | Some (_, (_, d)) => d
    | None => [c]
    end.

Definition latin1_lower_char (c : N) : N :=
  if c <? 128 then lower_ascii c
  else if (192 <=? c) && (c <=? 222) && negb (c =? 215) then c + 32
  else c.

Definition latin1_isalpha (c : N) : bool :=
  ((65 <=? c) && (c <=? 90)) || ((97 <=? c) && (c <=? 122))
  || (c =? 170) || (c =? 181) || (c =? 186)
  || ((192 <=? c) && (c <=? 214)) || ((216 <=? c) && (c <=? 246))
  || ((248 <=? c) && (c <=? 255)).

Definition is_digit (c : N) : bool := (48 <=? c) && (c <=? 57).

(** The digits at the head of a string, and what follows them. *)
Fixpoint span_digits (s : pystr) : pystr * pystr :=
  match s with
  | c :: s' =>
      if is_digit c then let '(ds, rest) := span_digits s' in (c :: ds, rest)
      else ([], s)
  | [] => ([], [])
  end.

Definition digits_value (ds : pystr) : Z :=
  foldl (λ acc c, 10 * acc + Z.of_N (c - 48))%Z 0%Z ds.

(** A decimal literal: digits, then possibly a point and more digits. *)
Definition unsigned_literal (s : pystr) : option Qc :=
  let '(ip, rest) := span_digits s in
  match ip, rest with
  | [], _ => None
  | _, [] => Some (Qc_of_Z (digits_value ip))
  | _, c :: fp =>
      if (c =? 46) && forallb is_digit fp then
        Some (Q2Qc (Qmake (digits_value (ip ++ fp))
                          (Z.to_pos (10 ^ Z.of_nat (length fp)))))
      else None
  end.

Definition decimal_literal (s : pystr) : option float :=
  match strip s with
  | [] => None
  | c :: s' =>
      if c =? 45 then (λ q, FFin (- q)%Qc) <$> unsigned_literal s'
      else if c =? 43 then FFin <$> unsigned_literal s'
      else FFin <$> unsigned_literal (c :: s')
  end.

(** The digits of a natural number, padded with zeros to a width. *)
Definition padded (width : nat) (n : Z) : pystr :=
  let ds := py (pretty n) in replicate (width - length ds) 48 ++ ds.

Fixpoint strip_zeros (rev_digits : pystr) : pystr :=
  match rev_digits with
  | 48 :: s => strip_zeros s
  | _ => rev_digits
  end.

(** [repr] of a float that is printed without an exponent: the decimal
    expansion, cut after 17 fractional digits. *)
Definition decimal_repr (x : float) : pystr :=
  match x with
  | FNaN => py "nan"
  | FInf false => py "inf"
  | FInf true => py "-inf"
  | FFin q =>
      let n := Z.abs (Qnum q) in
      let d := Zpos (Qden q) in
      let frac := reverse (strip_zeros (reverse (padded 17 ((n `mod` d) * 10 ^ 17 `div` d)%Z))) in
      (if bool_decide (Qnum q < 0)%Z then [45] else [])
      ++ py (pretty (n `div` d)%Z) ++ [46] ++ (if decide (frac = []) then [48] else frac)
  end.

Lemma digit_not_space c : 48 ≤ c ≤ 57 → isspace c = false.
Proof.
  intros Hc. unfold isspace.
  repeat match goal with
  | |- context [N.leb ?a ?b] => destruct (N.leb_spec a b)
  | |- context [N.eqb ?a ?b] => destruct (N.eqb_spec a b)
  end; simpl; lia || done.
Qed.

Lemma decimal_literal_digits s :
  s ≠ [] → Forall (λ c, 48 ≤ c ≤ 57) s → is_Some (decimal_literal s).
Proof.
  intros Hne Hs.
  assert (span_digits s = (s, [])) as Hspan.
  { clear Hne. induction Hs as [|c s Hc _ IH]; simpl; [done|].
    unfold is_digit. rewrite IH. simpl in Hc.
    destruct (N.leb_spec 48 c), (N.leb_spec c 57); simpl; [done|lia..]. }
  assert (∀ t, Forall (λ c, 48 ≤ c ≤ 57) t → lstrip t = t) as Hl.
  { intros [|c t] Ht; [done|]. apply Forall_cons in Ht as [Hc _]. simpl.
    by rewrite digit_not_space. }
  unfold decimal_literal, strip, rstrip.
  rewrite (Hl s), Hl, reverse_involutive by (done || by apply Forall_reverse).
  destruct s as [|c s]; [done|]. apply Forall_cons in Hs as [Hc Hs].
  destruct (N.eqb_spec c 45); [lia|]. destruct (N.eqb_spec c 43); [lia|].
  unfold unsigned_literal. rewrite Hspan. by eexists.
Qed.

Global Program Instance latin1_lib : PyLib := {|
  decomposition := latin1_decomposition;
  str_lower s := latin1_lower_char <$> s;
  isalpha := latin1_isalpha;
  float_repr := decimal_repr;
  parses_numeric s := bool_decide (is_Some (decimal_literal s));
  float_of_str := decimal_literal;
|}.
Next Obligation.
  intros c Hc. unfold latin1_decomposition.
  destruct (N.ltb_spec c 160); [done|lia].
Qed.
Next Obligation.
  intros s Hs. apply Forall_fmap_ext. eapply Forall_impl; [done|].
  intros c Hc. simpl in *. unfold latin1_lower_char.
  destruct (N.ltb_spec c 128); [done|lia].
Qed.
Next Obligation.
  intros s Hne Hs. by apply bool_decide_eq_true, decimal_literal_digits.
Qed.

(** Division and multiplication of floats, as numpy computes them on arrays
    (a division by zero gives an infinity or NaN, and raises nothing). *)
Definition Qc_sign_neg (q : Qc) : bool := bool_decide (q < 0)%Qc.

Definition fmul (x y : float) : float :=
  match x, y with
  | FNaN, _ | _, FNaN => FNaN
  | FInf a, FInf b => FInf (xorb a b)
  | FInf a, FFin q | FFin q, FInf a =>
      if decide (q = 0%Qc) then FNaN else FInf (xorb a (Qc_sign_neg q))
  | FFin p, FFin q => FFin (p * q)%Qc
  end.

Definition fdiv (x y : float) : float :=
  match x, y with
  | FNaN, _ | _, FNaN => FNaN
  | FInf _, FInf _ => FNaN
  | FInf a, FFin q => FInf (xorb a (Qc_sign_neg q))
  | FFin _, FInf _ => fzero
  | FFin p, FFin q =>
      if decide (q = 0%Qc) then
        if decide (p = 0%Qc) then FNaN else FInf (Qc_sign_neg p)
      else FFin (p / q)%Qc
  end.

(** The cast of a float to an integer: towards zero. *)
Definition float_to_Z (x : float) : option Z :=
  match x with
  | FFin q => Some (Z.quot (Qnum q) (Zpos (Qden q)))
  | _ => None
  end.

Definition scalar_to_Z (v : scalar) : option Z :=
  match v with
  | SNone => None
  | SBool b => Some (Z.b2z b)
  | SInt z => Some z
  | SFloat x => float_to_Z x
  | SStr s => decimal_literal s ≫= float_to_Z
  end.

Definition scalar_to_float (v : scalar) : option float :=
  match v with
  | SNone => Some FNaN
  | SStr s => decimal_literal s
  | _ => as_float v
  end.

Definition numeric_cells (col : series) : option (list float) :=
  match col with
  | ObjectCol _ => None
  | _ => Some ((λ v, default FNaN (as_float v)) <$> cells col)
  end.

(** [s / x] and [s * x] on a column of numbers; a column of text, or a text
    for [x], raises [TypeError]. *)
Definition numeric_binop (op : float → float → float) (col : series) (x : scalar)
    : result series :=
  match numeric_cells col, as_float x with
  | Some ys, Some x => Ok (FloatCol ((λ y, op y x) <$> ys))
  | _, _ => Raise TypeError
  end.

Global Instance numpy_lib : PandasLib := {|
  astype_int col :=
    match col with
    | IntCol xs => Some xs
    | _ => mapM scalar_to_Z (cells col)
    end;
  astype_float col := mapM scalar_to_float (cells col);
  series_sum := group_sum;
  series_truediv := numeric_binop fdiv;
  series_mul := numeric_binop fmul;
  astype_int_int xs := eq_refl;
|}.

(** ** The map and the table (streamlit_app.py, lines 165-227) *)

(** [dict(zip(keys, values))] as a dictionary in insertion order, which
    [.values()] follows. *)
Definition dict_of_pairs {V} (kvs : list (pystr * V)) : dict V :=
  foldl (λ d kv, dict_set kv.1 kv.2 d) [] kvs.

(** [x < y] and [x <= y] on floats: false when one of them is NaN. *)
Definition flt (x y : float) : bool :=
  match x, y with
  | FNaN, _ | _, FNaN => false
  | FInf a, FInf b => a && negb b
  | FInf a, FFin _ => a
  | FFin _, FInf b => negb b
  | FFin p, FFin q => bool_decide (p < q)%Qc
  end.

Definition fle (x y : float) : bool :=
  match x, y with
  | FNaN, _ | _, FNaN => false
  | FInf a, FInf b => a || negb b
  | FInf a, FFin _ => a
  | FFin _, FInf b => negb b
  | FFin p, FFin q => bool_decide (p ≤ q)%Qc
  end.

(** Python's [a > b] and [a <= b] on scalars: numbers with numbers, strings
    with strings. *)
Definition py_gt (a b : scalar) : result bool :=
  match a, b with
  | SStr s, SStr t => Ok (negb (str_leb s t))
  | _, _ =>
      match as_float a, as_float b with
      | Some x, Some y => Ok (flt y x)
      | _, _ => Raise TypeError
      end
  end.

Definition py_le (a b : scalar) : result bool :=
  match a, b with
  | SStr s, SStr t => Ok (str_leb s t)
  | _, _ =>
      match as_float a, as_float b with
      | Some x, Some y => Ok (fle x y)
      | _, _ => Raise TypeError
      end
  end.

(** [max(xs)]: an item takes the place of the greatest so far when it is
    greater. *)
Definition py_max (xs : list scalar) : result scalar :=
  match xs with
  | [] => Raise ValueError
  | x :: xs' =>
      foldl (λ acc item,
               m ← acc; gt ← py_gt item m; Ok (if gt : bool then item else m))
            (Ok x) xs'
  end.

(** Lines 180-184: the greatest aggregate value and the scale of the
    elevation. *)
Definition max_metric (df_agg : list (pystr * scalar)) : result scalar :=
  match (dict_of_pairs df_agg).*2 with
  | [] => Ok (SInt 0)
  | values => py_max values
  end.

Definition elev_scale_base (df_agg : list (pystr * scalar)) : result float :=
  max_metric ← max_metric df_agg;
  le ← py_le max_metric (SInt 0);
  if le : bool then Ok (float_of_Z 1)
  else
    match as_float max_metric with
    | Some x =>
        let y := fdiv x (float_of_Z 25000) in
        Ok (if flt (float_of_Z 1) y then y else float_of_Z 1)
    | None => Raise TypeError
    end.




Section Dashboard.
Context `{PyLib}.

(** [st.sidebar.selectbox]: the option that the user picks. *)
Variable selectbox : list pystr → pystr.

(** [sort_values(metric_col, ascending=False).reset_index(drop=True)] on the
    rows of a table whose two columns have different labels. *)
Variable sort_values : list (json * json) → list (json * json).


End Dashboard.

(** ** Vocabulary of the properties *)

(** A word of [split]: not empty, and with no white space. *)
Definition word (w : pystr) : Prop := w ≠ [] ∧ Forall (λ c, isspace c = false) w.

(** A name in normal form: ASCII without ampersand and capital letters, in
    words separated by single spaces. *)
Definition normal_char (c : N) : Prop := c < 128 ∧ c ≠ 38 ∧ lower_ascii c = c.

Definition normal (r : pystr) : Prop :=
  (∃ ws, r = join [32] ws ∧ Forall word ws) ∧ Forall normal_char r.

(** [x] is the first member of [l] that has the property [P]. *)
Definition first_with {A} (P : A → Prop) (l : list A) (x : A) : Prop :=
  ∃ pre post, l = pre ++ x :: post ∧ P x ∧ Forall (λ y, ¬ P y) pre.

(** [sub] occurs in [s]. *)
Definition substring (sub s : pystr) : Prop := ∃ pre post, s = pre ++ sub ++ post.

(** A list in strictly increasing order. *)
Definition strictly_sorted (l : list pystr) : Prop :=
  StronglySorted (λ s t, str_le s t ∧ s ≠ t) l.

(** The canonical name of an ASCII name, computed without the library. *)
Definition canonical_ascii (s : pystr) : pystr :=
  let n := lower_ascii <$> join [32] (split (replace1 38 (py "and") (strip s))) in
  default n (dict_get n COMMON_NAME_MAP).

(** The metric value that reconciliation gives a region of canonical name
    [n]: the value of the aggregate for [n], or 0.0 when it has none. *)
Definition metric_of (A : gmap pystr scalar) (n : pystr) : float :=
  match A !! n with
  | Some v => default fzero (as_float v)
  | None => fzero
  end.

(** The greatest of the values and 0. *)
Definition greatest (zs : list Z) : Z := foldr Z.max 0%Z zs.

(** The total of a column of integers over the rows of canonical name [n],
    as an integer. *)
Definition group_total (norms : list pystr) (xs : list Z) (n : pystr) : Z :=
  sum_Z (rows_where ((λ m, bool_decide (m = n)) <$> norms) xs).

(** The integers that int64 holds, and those that float64 holds exactly. *)
Definition int64 (z : Z) : Prop := (- 2 ^ 63 ≤ z < 2 ^ 63)%Z.


(** The test of line 24 of data_prep.py: the percentage column is absent or
    has a missing value. *)
Definition incomplete (d : DataFrame) (pct_col : pystr) : Prop :=
  match dict_get pct_col d with
  | Some col => has_na col = true
  | None => True
  end.

Global Instance incomplete_dec d pct_col : Decision (incomplete d pct_col).
Proof. unfold incomplete. destruct (dict_get pct_col d); apply _. Defined.

(** The column [(year / year.sum()) * 100.0] of lines 25-26. *)
Definition percentage `{PandasLib} (year : series) : result series :=
  total ← series_sum year;
  ratio ← series_truediv year total;
  series_mul ratio (SFloat (FFin (Qc_of_Z 100))).

Section Vocabulary.
Context `{PyLib}.

(** A header that names the state column: it contains "state" or "ut",
    whatever the case of its letters. *)
Definition state_header (c : pystr) : Prop :=
  substring (py "state") (str_lower c) ∨ substring (py "ut") (str_lower c).

(** A column that [numeric_cols] takes as a metric candidate. *)
Definition numeric_coercible (col : series) : Prop :=
  is_number col = true ∨ to_numeric_probe col = true.

(** The canonical names of the rows of a state column. *)
Definition canonical_names (names : series) : list pystr :=
  (λ s, apply_common_map (SStr s)) <$> state_raw names.

End Vocabulary.

(** ** Tables and regions of the examples *)

Definition sample_props : dict json := [
  (py "ID_1", JScalar (SInt 16));
  (py "NAME_1", JScalar (SStr (py "Kerala")));
  (py "TYPE_1", JScalar (SStr (py "State")))
].

Definition years_only : DataFrame := [
  (py "2021", IntCol [120; 80]%Z);
  (py "2022", IntCol [140; 95]%Z)
].

(** The text of a file with this table, its lines ended by a line feed. *)
Definition years_csv : pystr :=
  py "2021,2022" ++ [10] ++ py "120,140" ++ [10] ++ py "80,95" ++ [10].

(** The uploads of the examples.  In any other text, the empty one among
    them, no column is found: [pd.read_csv] raises EmptyDataError, which is a
    ValueError. *)
Definition uploads (text : pystr) : result DataFrame :=
  if decide (text = years_csv) then Ok years_only else Raise ValueError.

Definition example_records : DataFrame := [
  (py "State", ObjectCol (SStr <$> [py "Odisha"; py "Orissa"; py "Kerala"]));
  (py "Cases", IntCol [10; 5; 3]%Z)
].

(** Twenty rows of Kerala with the metric "1" and one row of Goa with the
    metric "x", as [read_csv] gives them: a column of text, dtype object. *)
Definition text_metric_table : DataFrame := [
  (py "State", ObjectCol (SStr <$> replicate 20 (py "Kerala") ++ [py "Goa"]));
  (py "Cases", ObjectCol (SStr <$> replicate 20 (py "1") ++ [py "x"]))
].

Definition boundary_features : list feature := [
  [(py "name", JScalar (SStr (py "Orissa")))];
  [(py "name", JScalar (SStr (py "Kerala")))];
  [(py "name", JScalar (SStr (py "Goa")))]
].

Definition uploaded_aggregate : list (pystr * scalar) :=
  [(py "kerala", SInt 40); (py "orissa", SInt 100)].

Definition negative_aggregate : list (pystr * scalar) :=
  [(py "kerala", SInt (-5))].

Definition crime_table : DataFrame := [
  (py "Sl. No.", IntCol [1; 2]%Z);
  (py "State/UT", ObjectCol [SStr (py "Kerala"); SStr (py "Goa")]);
  (py "2022", IntCol [30; 70]%Z);
  (py "percentage", FloatCol [FNaN; FNaN])
].

Definition bad_table : DataFrame := [
  (py "Sl. No.", IntCol [1; 2]%Z);
  (py "State/UT", ObjectCol [SStr (py "Kerala"); SNone]);
  (py "2022", IntCol [30; -70]%Z)
].

(** The files of the examples. *)
Definition files (path : pystr) : result DataFrame :=
  if decide (path = py "crime.csv") then Ok crime_table
  else if decide (path = py "bad.csv") then Ok bad_table
  else Raise OSError.

Definition state_table : DataFrame := [
  (py "Sl. No.", IntCol [1; 2]%Z);
  (py "Name of State/UT", ObjectCol [SStr (py "Kerala"); SStr (py "Goa")]);
  (py "2022", IntCol [30; 70]%Z)
].

(** A table with a column of codes, and one whose counts are all zero. *)
Definition coded_table : DataFrame := [
  (py "Code", ObjectCol [SStr (py "07"); SStr (py "12")]);
  (py "State", ObjectCol [SStr (py "Kerala"); SStr (py "Goa")]);
  (py "Open", BoolCol [true; false]);
  (py "Cases", IntCol [30; 70]%Z);
  (py "Rate", FloatCol [FNaN; float_of_Z 2])
].

(** A table that already has a column [__state_norm], of numbers. *)
Definition renamed_table : DataFrame := [
  (py "State", ObjectCol [SStr (py "Kerala"); SStr (py "Goa")]);
  (py "Cases", IntCol [30; 70]%Z);
  (state_norm_key, IntCol [1; 2]%Z)
].

Definition idle_table : DataFrame := [
  (py "State/UT", ObjectCol [SStr (py "Kerala"); SStr (py "Goa")]);
  (py "2022", IntCol [0; 0]%Z)
].

(** * Properties *)

(** ** Code points *)

(** Case analysis on the comparisons of code points in the goal. *)
Ltac cmp_cases :=
  repeat (match goal with
   | |- context [N.leb ?a ?b] => destruct (N.leb_spec a b)
   | |- context [N.ltb ?a ?b] => destruct (N.ltb_spec a b)
   | |- context [N.eqb ?a ?b] => destruct (N.eqb_spec a b)
   | H : context [N.leb ?a ?b] |- _ => destruct (N.leb_spec a b)
   | H : context [N.ltb ?a ?b] |- _ => destruct (N.ltb_spec a b)
   | H : context [N.eqb ?a ?b] |- _ => destruct (N.eqb_spec a b)
   end; simpl in *; try lia; try done).

Lemma isspace_lower_ascii c : isspace (lower_ascii c) = isspace c.
Proof.
  unfold lower_ascii. destruct ((65 <=? c) && (c <=? 90)) eqn:E; [|done].
  apply andb_true_iff in E as [E1 E2]. apply N.leb_le in E1, E2.
  unfold isspace. cmp_cases.
Qed.

Lemma lower_ascii_idemp c : lower_ascii (lower_ascii c) = lower_ascii c.
Proof. unfold lower_ascii. cmp_cases. Qed.

Lemma lower_ascii_lt c : c < 128 → lower_ascii c < 128.
Proof. unfold lower_ascii. cmp_cases. Qed.

Lemma lower_ascii_amp c : c ≠ 38 → lower_ascii c ≠ 38.
Proof. unfold lower_ascii. cmp_cases. Qed.

(** ** Words and single spaces *)

Lemma split_go_app w s :
  Forall (λ c, isspace c = false) w →
  split_go (w ++ s) = ((w ++ (split_go s).1), (split_go s).2).
Proof.
  induction 1 as [|c w Hc _ IH]; simpl.
  - by destruct (split_go s).
  - rewrite IH, Hc. done.
Qed.

Lemma split_go_space s : split_go (32 :: s) = ([], split s).
Proof. unfold split. simpl. by destruct (split_go s). Qed.

Lemma split_join ws : Forall word ws → split (join [32] ws) = ws.
Proof.
  induction 1 as [|w ws [Hne Hw] Hws IH]; [done|].
  destruct ws as [|w' ws].
  - simpl. unfold split. rewrite <-(app_nil_r w), split_go_app by done. simpl.
    rewrite app_nil_r. by destruct w.
  - change (join [32] (w :: w' :: ws)) with (w ++ 32 :: join [32] (w' :: ws)).
    unfold split at 1. rewrite split_go_app by done. rewrite split_go_space.
    cbn [fst snd]. rewrite app_nil_r, IH. by destruct w.
Qed.

Lemma split_go_words s :
  Forall (λ c, isspace c = false) (split_go s).1 ∧ Forall word (split_go s).2.
Proof.
  induction s as [|c s [IH1 IH2]]; simpl; [by split|].
  destruct (split_go s) as [w ws]; simpl in *.
  destruct (isspace c) eqn:Hc; simpl.
  - split; [done|]. destruct w; simpl; [done|]. constructor; [by split|done].
  - split; [by constructor|done].
Qed.

Lemma split_words s : Forall word (split s).
Proof.
  unfold split. pose proof (split_go_words s) as [H1 H2].
  destruct (split_go s) as [w ws]; simpl in *.
  destruct w; simpl; [done|]. constructor; [by split|done].
Qed.

Lemma lstrip_id s : (∀ c s', s = c :: s' → isspace c = false) → lstrip s = s.
Proof. destruct s as [|c s]; [done|]. intros Hs. simpl. by rewrite (Hs c s). Qed.

Lemma join_head ws c s :
  Forall word ws → join [32] ws = c :: s → isspace c = false.
Proof.
  destruct 1 as [|w ws [Hne Hw] _]; [done|].
  destruct w as [|c' w]; [done|]. apply Forall_cons in Hw as [Hc _].
  destruct ws; simpl; intros; simplify_eq; done.
Qed.

Lemma join_last ws :
  Forall word ws → ∀ c s, reverse (join [32] ws) = c :: s → isspace c = false.
Proof.
  induction 1 as [|w ws [Hne Hw] Hws IH]; intros c s; [done|].
  destruct ws as [|w' ws].
  - simpl. intros Hr. apply (f_equal reverse) in Hr.
    rewrite reverse_involutive, reverse_cons in Hr. subst w.
    apply Forall_app in Hw as [_ Hw]. by inv Hw.
  - change (join [32] (w :: w' :: ws)) with (w ++ 32 :: join [32] (w' :: ws)).
    rewrite reverse_app, reverse_cons.
    destruct (reverse (join [32] (w' :: ws))) as [|c' s'] eqn:E.
    + apply (f_equal reverse) in E. rewrite reverse_involutive in E.
      apply Forall_cons in Hws as [[Hne' _] _].
      destruct w'; [done|]. by destruct ws.
    + simpl. intros; simplify_eq. by apply (IH c s').
Qed.

Lemma strip_join ws : Forall word ws → strip (join [32] ws) = join [32] ws.
Proof.
  intros Hws. unfold strip, rstrip.
  rewrite (lstrip_id (join _ _)) by eauto using join_head.
  rewrite lstrip_id by eauto using join_last.
  apply reverse_involutive.
Qed.

(** What holds of every code point of a string holds after each step. *)
Section chars.
Context (P : N → Prop).

Lemma Forall_lstrip s : Forall P s → Forall P (lstrip s).
Proof. induction 1; simpl; [done|]. case_match; by try constructor. Qed.

Lemma Forall_strip s : Forall P s → Forall P (strip s).
Proof.
  intros. unfold strip, rstrip.
  by apply Forall_reverse, Forall_lstrip, Forall_reverse, Forall_lstrip.
Qed.

Lemma Forall_replace1 old new s :
  Forall P new → (∀ c, c ≠ old → c ∈ s → P c) → Forall P (replace1 old new s).
Proof.
  intros Hnew Hs. unfold replace1. apply Forall_bind, Forall_forall.
  intros c Hc. simpl. destruct (N.eqb_spec c old); [done|].
  apply Forall_singleton; auto.
Qed.

Lemma Forall_split s : Forall P s → Forall (Forall P) (split s).
Proof.
  intros Hs. assert (Forall P (split_go s).1 ∧ Forall (Forall P) (split_go s).2)
    as [H1 H2].
  { induction Hs as [|c s Hc _ [IH1 IH2]]; simpl; [by split|].
    destruct (split_go s) as [w ws]; simpl in *.
    destruct (isspace c); simpl.
    - split; [done|]. destruct w; simpl; [done|by constructor].
    - split; [by constructor|done]. }
  unfold split. destruct (split_go s) as [w ws]; simpl in *.
  destruct w; simpl; [done|by constructor].
Qed.

Lemma Forall_join sep ws :
  Forall P sep → Forall (Forall P) ws → Forall P (join sep ws).
Proof.
  intros Hsep. induction 1 as [|w ws Hw Hws IH]; [done|].
  destruct ws; [done|].
  change (Forall P (w ++ sep ++ join sep (l :: ws))).
  by rewrite !Forall_app.
Qed.
End chars.

Lemma fmap_join (f : N → N) sep ws :
  f <$> join sep ws = join (f <$> sep) (fmap (M:=list) f <$> ws).
Proof.
  induction ws as [|w ws IH]; [done|]. destruct ws as [|w' ws]; [done|].
  change (f <$> w ++ sep ++ join sep (w' :: ws) =
    (f <$> w) ++ (f <$> sep) ++ join (f <$> sep) (fmap (M:=list) f <$> w' :: ws)).
  by rewrite !fmap_app, IH.
Qed.

Lemma replace1_absent old new s : Forall (λ c, c ≠ old) s → replace1 old new s = s.
Proof.
  unfold replace1. induction 1 as [|c s Hc _ IH]; [done|].
  rewrite bind_cons, IH. by destruct (N.eqb_spec c old).
Qed.

Lemma normal_single_spaced r :
  join [32] (split r) = r → Forall normal_char r → normal r.
Proof. intros Hr ?. split; [|done]. exists (split r). eauto using split_words. Qed.

Section normalize.
Context `{PyLib}.

Lemma ascii_fold_ascii s : Forall (λ c, c < 128) s → ascii_fold s = s.
Proof.
  unfold ascii_fold. induction 1 as [|c s Hc _ IH]; [done|].
  rewrite bind_cons, filter_app, IH, decomposition_ascii by done.
  by rewrite filter_cons_True.
Qed.

Lemma ascii_fold_lt s : Forall (λ c, c < 128) (ascii_fold s).
Proof. apply Forall_forall. intros c Hc. by apply list_elem_of_filter in Hc as [? _]. Qed.

Lemma normalize_text_ascii s :
  Forall (λ c, c < 128) s →
  normalize_text (SStr s) =
    lower_ascii <$> join [32] (split (replace1 38 (py "and") (strip s))).
Proof.
  intros Hs. unfold normalize_text. simpl. rewrite ascii_fold_ascii by done.
  apply str_lower_ascii, Forall_join; [by repeat constructor|].
  apply Forall_split, Forall_replace1; [by repeat constructor|].
  intros c _ Hc. revert c Hc. by apply Forall_forall, Forall_strip.
Qed.

Lemma normal_fixed r : normal r → normalize_text (SStr r) = r.
Proof.
  intros [(ws & -> & Hws) Hr].
  rewrite normalize_text_ascii by (eapply Forall_impl; [done|by intros ? []]).
  rewrite strip_join, replace1_absent, split_join by
    (done || (eapply Forall_impl; [done|by intros ? (?&?&?)])).
  rewrite <-(list_fmap_id (join _ _)) at 2.
  apply Forall_fmap_ext. eapply Forall_impl; [done|by intros ? (?&?&?)].
Qed.

Lemma normalize_text_normal s : normal (normalize_text s).
Proof.
  unfold normalize_text. destruct (isna s).
  { split; [by exists []|done]. }
  set (r0 := replace1 _ _ _).
  assert (Forall (λ c, c < 128 ∧ c ≠ 38) r0) as Hr0.
  { apply Forall_replace1; [by repeat constructor|].
    intros c Hne Hc. split; [|done]. clear Hne. revert c Hc.
    apply Forall_forall, Forall_strip, ascii_fold_lt. }
  assert (Forall (λ c, c < 128 ∧ c ≠ 38) (join [32] (split r0))) as Hj.
  { apply Forall_join; [by repeat constructor|]. by apply Forall_split. }
  rewrite str_lower_ascii by (eapply Forall_impl; [done|by intros ? []]).
  split.
  - exists (fmap (M:=list) lower_ascii <$> split r0). split; [apply fmap_join|].
    apply Forall_fmap. eapply Forall_impl; [apply split_words|].
    intros w [Hne Hw]. split; [by destruct w|].
    apply Forall_fmap. eapply Forall_impl; [done|].
    intros c Hc. simpl. by rewrite isspace_lower_ascii.
  - apply Forall_fmap. eapply Forall_impl; [done|]. intros c [??].
    split_and!; simpl; auto using lower_ascii_lt, lower_ascii_amp, lower_ascii_idemp.
Qed.

End normalize.

(** ** Normalisation and the alias table *)

(** C7. Normalisation is idempotent: for every string [x],
    [normalize(normalize(x)) == normalize(x)]. *)
Theorem normalize_text_idempotent `{PyLib} (x : pystr) :
  normalize_text (SStr (normalize_text (SStr x))) = normalize_text (SStr x).
Proof. apply normal_fixed, normalize_text_normal. Qed.

Lemma dict_get_Some {V} k (v : V) d : dict_get k d = Some v → (k, v) ∈ d.
Proof.
  induction d as [|[k' v'] d IH]; simpl; [done|].
  case_decide; intros; simplify_eq; [left|right; auto].
Qed.

Lemma dict_get_None {V} k (d : dict V) : dict_get k d = None ↔ k ∉ dict_keys d.
Proof.
  unfold dict_keys. induction d as [|[k' v'] d IH]; simpl.
  - split; [intros _; apply not_elem_of_nil|done].
  - rewrite not_elem_of_cons. case_decide; [split; [done|by intros [? _]]|].
    rewrite IH. split; [done|by intros [_ ?]].
Qed.

Lemma COMMON_NAME_MAP_normal : Forall (λ kv, normal kv.2) COMMON_NAME_MAP.
Proof.
  unfold COMMON_NAME_MAP.
  repeat (apply Forall_cons_2;
    [simpl; apply normal_single_spaced;
       [vm_compute; reflexivity
       |unfold normal_char; apply (bool_decide_unpack _); vm_compute; exact I]|]).
  apply Forall_nil_2.
Qed.

(** C8. Every value of the alias table is in normalised form (a fixed point
    of [normalize_text]: ASCII, lower case, single-spaced), and so is every
    output of the alias resolver [apply_common_map]. *)
Theorem alias_table_normalized `{PyLib} :
  (∀ k v, (k, v) ∈ COMMON_NAME_MAP →
     normalize_text (SStr v) = v
     ∧ Forall (λ c, c < 128 ∧ lower_ascii c = c) v
     ∧ join [32] (split v) = v)
  ∧ (∀ name,
       normalize_text (SStr (apply_common_map name)) = apply_common_map name).
Proof.
  pose proof COMMON_NAME_MAP_normal as Hmap. rewrite Forall_forall in Hmap.
  split.
  - intros k v Hkv. pose proof (Hmap _ Hkv) as Hv. simpl in Hv.
    split_and!; [by apply normal_fixed| |].
    + destruct Hv as [_ Hv]. eapply Forall_impl; [done|]. by intros c (?&?&?).
    + destruct Hv as [(ws & -> & Hws) _]. by rewrite split_join.
  - intros name. apply normal_fixed. unfold apply_common_map.
    destruct (dict_get _ _) as [v|] eqn:Hget; simpl.
    + apply dict_get_Some in Hget. apply (Hmap _ Hget).
    + apply normalize_text_normal.
Qed.

(** The examples of the specification, run on the reference library: case
    and diacritics make no difference, an ampersand reads "and", a missing
    name is the empty string, and both names of Puducherry resolve alike. *)
Example normalize_text_examples :
  normalize_text (SStr (py "Odisha")) = py "odisha"
  ∧ normalize_text (SStr (py "ODISHA")) = py "odisha"
  ∧ normalize_text (SStr [111; 100; 239; 115; 104; 224]) = py "odisha"
  ∧ normalize_text (SStr (py "Jammu & Kashmir")) = py "jammu and kashmir"
  ∧ normalize_text SNone = []
  ∧ apply_common_map (SStr (py "Pondicherry")) = py "puducherry"
  ∧ apply_common_map (SStr (py "Puducherry")) = py "puducherry".
Proof. by vm_compute. Qed.

(** ** First matches *)

Section first_with.
Context {A} (P : A → Prop) `{!∀ x, Decision (P x)}.

Lemma first_with_cons_True x l : P x → first_with P (x :: l) x.
Proof. intros. by exists [], l. Qed.

Lemma first_with_cons_False x y l :
  ¬ P x → first_with P l y → first_with P (x :: l) y.
Proof.
  intros ? (pre & post & -> & ? & ?). exists (x :: pre), post.
  split_and!; [done..|by constructor].
Qed.

Lemma first_with_unique l x y : first_with P l x → first_with P l y → x = y.
Proof.
  intros (pre & post & -> & Hx & Hpre) (pre' & post' & Heq & Hy & Hpre').
  revert pre' Heq Hpre'. induction pre as [|z pre IH]; intros [|z' pre'] Heq Hpre';
    simplify_eq/=; try done.
  - by apply Forall_cons in Hpre' as [? _].
  - by apply Forall_cons in Hpre as [? _].
  - apply Forall_cons in Hpre as [_ ?], Hpre' as [_ ?]. eauto.
Qed.

Lemma first_with_elem_of l x : first_with P l x → x ∈ l ∧ P x.
Proof. intros (pre & post & -> & ? & _). split; [|done]. set_solver. Qed.

Lemma list_find_first l i x : list_find P l = Some (i, x) → first_with P l x.
Proof.
  revert i. induction l as [|y l IH]; intros i; simpl; [done|].
  case_decide; intros Hf; simplify_eq/=; [by apply first_with_cons_True|].
  destruct (list_find P l) as [[j z]|]; simplify_eq/=.
  apply first_with_cons_False; eauto.
Qed.
End first_with.

(** ** Detection of the state key *)

Section detect_state_key.
Context `{PyLib}.

Lemma preferred_match_Some cands props k :
  preferred_match cands props = Some k →
  ∃ cand, first_with (λ c, c ∈ str_lower <$> dict_keys props) cands cand
        ∧ first_with (λ k', str_lower k' = cand) (dict_keys props) k.
Proof.
  induction cands as [|cand cands IH]; simpl; [done|].
  case_bool_decide as Hin.
  - destruct (list_find _ _) as [[i k']|] eqn:Hfind.
    + intros; simplify_eq. exists cand. split; [by apply first_with_cons_True|].
      by eapply list_find_first.
    + apply list_find_None in Hfind.
      apply list_elem_of_fmap in Hin as (k' & -> & Hk').
      rewrite Forall_forall in Hfind. by destruct (Hfind k' Hk').
  - intros (c & ? & ?)%IH. exists c. split; [|done].
    by apply first_with_cons_False.
Qed.

Lemma preferred_match_None cands props :
  preferred_match cands props = None →
  Forall (λ c, c ∉ str_lower <$> dict_keys props) cands.
Proof.
  induction cands as [|cand cands IH]; simpl; [done|].
  case_bool_decide as Hin.
  - destruct (list_find _ _) as [[i k']|] eqn:Hfind; [done|].
    apply list_find_None in Hfind.
    apply list_elem_of_fmap in Hin as (k' & -> & Hk').
    rewrite Forall_forall in Hfind. by destruct (Hfind k' Hk').
  - intros. constructor; auto.
Qed.

(** C4 (as amended).  On a property mapping with at least one entry the
    detector returns one of its keys and raises nothing: the first key that
    matches the first matching entry of the preference list; when no entry
    matches, the key of the first property whose value reads as a place name;
    and when there is none, the first key. *)
Theorem detect_state_key_nonempty (props : dict json) :
  props ≠ [] →
  ∃ k, detect_state_key_from_props props = Ok k
    ∧ k ∈ dict_keys props
    ∧ (∀ cand,
         first_with (λ c, c ∈ str_lower <$> dict_keys props) preferred_keys cand →
         first_with (λ k', str_lower k' = cand) (dict_keys props) k)
    ∧ (Forall (λ c, c ∉ str_lower <$> dict_keys props) preferred_keys →
         (∀ kv, first_with (λ kv, plausible_name (json_str kv.2) = true) props kv →
                k = kv.1)
         ∧ (Forall (λ kv, plausible_name (json_str kv.2) = false) props →
            head (dict_keys props) = Some k)).
Proof.
  intros Hne. unfold detect_state_key_from_props.
  destruct (preferred_match _ _) as [k|] eqn:Hpref.
  - apply preferred_match_Some in Hpref as (cand & Hcand & Hk).
    exists k. split_and!; [done|by apply first_with_elem_of in Hk as [? _]| |].
    + intros cand' Hcand'.
      by rewrite (first_with_unique _ _ _ _ Hcand' Hcand).
    + intros Hnone. apply first_with_elem_of in Hcand as [Hin Hc].
      rewrite Forall_forall in Hnone. by destruct (Hnone cand Hin).
  - apply preferred_match_None in Hpref.
    destruct (list_find _ props) as [[i [k v]]|] eqn:Hfind.
    + apply list_find_first in Hfind. exists k. split_and!; [done| | |].
      * apply first_with_elem_of in Hfind as [Hin _].
        by apply (list_elem_of_fmap_2 fst) in Hin.
      * intros cand [Hin Hc]%first_with_elem_of.
        rewrite Forall_forall in Hpref. by destruct (Hpref cand Hin).
      * intros _. split.
        -- intros kv Hkv. by rewrite (first_with_unique _ _ _ _ Hkv Hfind).
        -- intros Hnone. apply first_with_elem_of in Hfind as [Hin Hp].
           rewrite Forall_forall in Hnone. specialize (Hnone _ Hin). simpl in *.
           congruence.
    + apply list_find_None in Hfind.
      destruct props as [|[k v] props]; [done|]. simpl.
      exists k. split_and!; [done|by left| |].
      * intros cand [Hin Hc]%first_with_elem_of.
        rewrite Forall_forall in Hpref. by destruct (Hpref cand Hin).
      * intros _. split; [|done]. intros kv [Hin Hp]%first_with_elem_of.
        rewrite Forall_forall in Hfind. by destruct (Hfind kv Hin).
Qed.
End detect_state_key.

Lemma detect_state_key_nonempty_witness :
  ∃ k, detect_state_key_from_props sample_props = Ok k ∧ k = py "NAME_1".
Proof.
  destruct (detect_state_key_nonempty sample_props) as (k & Hk & _);
    [done|].
  exists k. split; [done|]. vm_compute in Hk. by injection Hk as <-.
Defined.

(** C4 (as stated) fails on the mapping with no entries: there is no first
    key, and [list(props.keys())[0]] raises [IndexError]. *)
Lemma detect_state_key_empty_raises :
  detect_state_key_from_props [] = Raise IndexError
  ∧ ¬ ∃ k, detect_state_key_from_props [] = Ok k.
Proof. split; [done|]. by intros [k ?]. Qed.

(** ** Substrings *)

Lemma is_prefix_spec p s : is_prefix p s = true ↔ ∃ post, s = p ++ post.
Proof.
  revert s. induction p as [|a p IH]; intros s; simpl.
  - split; [by exists s|done].
  - destruct s as [|b s]; [split; [done|by intros [? ?]]|].
    rewrite andb_true_iff, N.eqb_eq, IH. split.
    + intros [-> [post ->]]. by exists post.
    + intros [post ?]; simplify_eq. split; [done|by exists post].
Qed.

Lemma contains_substring sub s : contains sub s = true ↔ substring sub s.
Proof.
  unfold substring. induction s as [|c s IH]; simpl.
  - rewrite orb_false_r, is_prefix_spec. split.
    + intros [post Hp]. by exists [], post.
    + intros (pre & post & Hs). destruct pre; [by exists post|done].
  - rewrite orb_true_iff, is_prefix_spec, IH. split.
    + intros [[post ->]|(pre & post & ->)]; [by exists [], post|by exists (c :: pre), post].
    + intros ([|c' pre] & post & Hs); simplify_eq/=; [left; by exists post|right; eauto].
Qed.

Global Instance substring_dec sub s : Decision (substring sub s).
Proof.
  refine (cast_if (decide (contains sub s = true))); by rewrite <-contains_substring.
Defined.

(** ** Column detection *)

Lemma head_filter_first {A} (P : A → Prop) `{!∀ x, Decision (P x)} l x :
  head (filter P l) = Some x ↔ first_with P l x.
Proof.
  split.
  - induction l as [|y l IH]; [done|]. rewrite filter_cons. case_decide.
    + intros; simplify_eq/=. by apply first_with_cons_True.
    + intros. apply first_with_cons_False; auto.
  - intros (pre & post & -> & Hx & Hpre). induction Hpre as [|y pre Hy _ IH].
    + simpl. by rewrite filter_cons_True.
    + simpl. by rewrite filter_cons_False.
Qed.

Lemma filter_nil_Forall {A} (P : A → Prop) `{!∀ x, Decision (P x)} l :
  filter P l = [] ↔ Forall (λ x, ¬ P x) l.
Proof.
  induction l as [|y l IH]; [done|]. rewrite filter_cons, Forall_cons.
  case_decide; [split; [done|by intros [? _]]|].
  rewrite IH. split; [done|by intros [_ ?]].
Qed.

Section columns.
Context `{PyLib}.

Global Instance state_header_dec c : Decision (state_header c).
Proof. unfold state_header. apply _. Defined.

Lemma state_candidates_eq df_raw :
  state_candidates df_raw = filter state_header (dict_keys df_raw).
Proof.
  unfold state_candidates, state_header. apply list_filter_iff. intros c.
  by rewrite !contains_substring.
Qed.

Lemma detect_state_col_header df_raw c :
  first_with state_header (dict_keys df_raw) c → detect_state_col df_raw = Some c.
Proof.
  intros Hc. apply (head_filter_first _) in Hc. unfold detect_state_col.
  rewrite state_candidates_eq. by destruct (filter _ _); simplify_eq/=.
Qed.

Lemma object_cols_head df_raw :
  head (object_cols df_raw)
  = fst <$> head (filter (λ ccol, is_object ccol.2 = true) df_raw).
Proof. unfold object_cols. by destruct (filter _ _). Qed.

Lemma detect_state_col_fallback df_raw :
  Forall (λ c, ¬ state_header c) (dict_keys df_raw) →
  detect_state_col df_raw = head (object_cols df_raw).
Proof.
  intros Hno. apply (filter_nil_Forall _) in Hno. unfold detect_state_col.
  rewrite state_candidates_eq, Hno. by destruct (object_cols _).
Qed.

Lemma detect_state_col_None df_raw :
  detect_state_col df_raw = None ↔
  Forall (λ c, ¬ state_header c) (dict_keys df_raw)
  ∧ Forall (λ ccol, is_object ccol.2 = false) df_raw.
Proof.
  unfold detect_state_col. rewrite state_candidates_eq.
  destruct (filter state_header _) as [|c cs] eqn:Hc.
  - apply (filter_nil_Forall _) in Hc. unfold object_cols.
    destruct (filter (λ ccol, _) df_raw) as [|ccol l] eqn:Ho; simpl.
    + apply (filter_nil_Forall _) in Ho. split; [intros _|done]. split; [done|].
      eapply Forall_impl; [done|]. intros ? ?. simpl in *. by destruct (is_object _).
    + split; [done|]. intros [_ Hall].
      assert (ccol ∈ filter (λ ccol, is_object ccol.2 = true) df_raw) as Hin
        by (rewrite Ho; left).
      apply list_elem_of_filter in Hin as [Hobj Hin].
      rewrite Forall_forall in Hall. specialize (Hall _ Hin). simpl in *. congruence.
  - split; [done|]. intros [Hno _]. apply (filter_nil_Forall _) in Hno. congruence.
Qed.

Lemma not_state_header_ascii c :
  Forall (λ c, c < 128) c →
  contains (py "state") (lower_ascii <$> c) || contains (py "ut") (lower_ascii <$> c)
    = false →
  ¬ state_header c.
Proof.
  intros Hc Hb. unfold state_header. rewrite str_lower_ascii by done.
  rewrite <-!contains_substring. apply orb_false_iff in Hb as [-> ->].
  by intros [|].
Qed.

(** C6. State-column detection picks the first column whose header contains
    "state" or "ut" in any case of letters; when there is none, the first
    column of text (dtype object); and it fails only when there is no column
    of text either.  On the columns [Name, 2022, Region], where [Name] and
    [Region] hold text, it picks [Name]. *)
Theorem detect_state_col_priority (df_raw : DataFrame) :
  (∀ c, first_with state_header (dict_keys df_raw) c →
        detect_state_col df_raw = Some c)
  ∧ (Forall (λ c, ¬ state_header c) (dict_keys df_raw) →
     ∀ ccol, first_with (λ ccol, is_object ccol.2 = true) df_raw ccol →
             detect_state_col df_raw = Some ccol.1)
  ∧ (detect_state_col df_raw = None ↔
     Forall (λ c, ¬ state_header c) (dict_keys df_raw)
     ∧ Forall (λ ccol, is_object ccol.2 = false) df_raw)
  ∧ (∀ names years regions,
       detect_state_col [(py "Name", ObjectCol names); (py "2022", IntCol years);
                         (py "Region", ObjectCol regions)] = Some (py "Name")).
Proof.
  split_and!.
  - apply detect_state_col_header.
  - intros Hno ccol Hccol. apply (head_filter_first _) in Hccol.
    rewrite detect_state_col_fallback, object_cols_head, Hccol by done. done.
  - apply detect_state_col_None.
  - intros names years regions. rewrite detect_state_col_fallback; [done|].
    repeat (apply Forall_cons_2;
      [apply not_state_header_ascii;
         [apply (bool_decide_unpack _); vm_compute; exact I|vm_compute; reflexivity]|]).
    apply Forall_nil_2.
Qed.
End columns.

Section metric_columns.
Context `{PyLib}.

Lemma numeric_cols_fold (l : DataFrame) acc c :
  c ∈ foldl (λ numeric_cols ccol,
           if bool_decide (ccol.1 ∈ numeric_cols) then numeric_cols
           else if to_numeric_probe ccol.2 then numeric_cols ++ [ccol.1]
           else numeric_cols) acc l
  ↔ c ∈ acc ∨ ∃ col, (c, col) ∈ l ∧ to_numeric_probe col = true.
Proof.
  revert acc. induction l as [|[c' col'] l IH]; intros acc; simpl.
  - split; [by left|]. intros [?|(? & Hn & _)]; [done|by apply elem_of_nil in Hn].
  - rewrite IH. clear IH. setoid_rewrite elem_of_cons.
    case_bool_decide as Hin; [|destruct (to_numeric_probe col') eqn:Hp].
    + naive_solver.
    + rewrite elem_of_app, list_elem_of_singleton. naive_solver.
    + split.
      * intros [?|(col & ? & ?)]; [by left|right; exists col; auto].
      * intros [?|(col & [?|?] & ?)]; [by left|simplify_eq; congruence|right; eauto].
Qed.

Lemma numeric_cols_spec df_raw c :
  c ∈ numeric_cols df_raw ↔ ∃ col, (c, col) ∈ df_raw ∧ numeric_coercible col.
Proof.
  unfold numeric_cols, numeric_coercible. rewrite numeric_cols_fold, list_elem_of_fmap.
  split.
  - intros [([c' col] & -> & [? ?]%list_elem_of_filter)|(col & ? & ?)]; eauto.
  - intros (col & Hin & [?|?]); [left|right; eauto].
    exists (c, col). split; [done|]. by apply list_elem_of_filter.
Qed.

Lemma bool_col_numeric xs : to_numeric_probe (BoolCol xs) = true.
Proof.
  unfold to_numeric_probe. apply forallb_forall. intros v Hv.
  apply list_elem_of_In, subseteq_take, list_elem_of_filter in Hv as [_ Hv].
  simpl in Hv. by apply list_elem_of_fmap in Hv as (b & -> & _).
Qed.

Lemma textual_or_numeric col : is_object col = true ∨ numeric_coercible col.
Proof.
  destruct col; simpl; [right; by left..| |by left].
  right; right. apply bool_col_numeric.
Qed.

(** The failures of the detection on a table: at most one of them is shown.
    On a table with no state header and no column of text the missing state
    column is shown alone, whatever numeric columns the table has; the
    missing metric column is shown exactly when a state column was found and
    no column is numeric-coercible.  A table whose columns are neither text
    nor numeric-coercible has no column at all. *)
Lemma select_columns_failures (df_raw : DataFrame) :
  (length (select_columns df_raw).1 ≤ 1)%nat
  ∧ (Forall (λ c, ¬ state_header c) (dict_keys df_raw) →
     Forall (λ ccol, is_object ccol.2 = false) df_raw →
     select_columns df_raw = ([MissingNameColumn], None))
  ∧ (MissingMetricColumn ∈ (select_columns df_raw).1 ↔
     is_Some (detect_state_col df_raw)
     ∧ Forall (λ ccol, ¬ numeric_coercible ccol.2) df_raw)
  ∧ (Forall (λ ccol, is_object ccol.2 = false) df_raw →
     Forall (λ ccol, ¬ numeric_coercible ccol.2) df_raw →
     df_raw = []).
Proof.
  assert (numeric_cols df_raw = [] ↔
          Forall (λ ccol, ¬ numeric_coercible ccol.2) df_raw) as Hnum.
  { rewrite Forall_forall. split.
    - intros Hnil [c col] Hin Hcol.
      assert (c ∈ numeric_cols df_raw) as Hc by (apply numeric_cols_spec; eauto).
      rewrite Hnil in Hc. by apply elem_of_nil in Hc.
    - intros Hall. destruct (numeric_cols df_raw) as [|c cs] eqn:Hcs; [done|].
      assert (c ∈ numeric_cols df_raw) as Hc by (rewrite Hcs; left).
      apply numeric_cols_spec in Hc as (col & Hin & Hcol).
      by destruct (Hall _ Hin). }
  unfold select_columns. split_and!.
  - destruct (detect_state_col df_raw); [destruct (numeric_cols df_raw)|]; simpl; lia.
  - intros Hno Hobj.
    by rewrite (proj2 (detect_state_col_None df_raw) (conj Hno Hobj)).
  - rewrite <-Hnum. destruct (detect_state_col df_raw) as [c|].
    + destruct (numeric_cols df_raw); simpl.
      * split; [by eauto|intros _; left].
      * split; [by intros ?%elem_of_nil|by intros [_ ?]].
    + simpl. split; [|by intros [[] _]].
      intros Hin. apply list_elem_of_singleton in Hin. done.
  - intros Hobj Hnone. destruct df_raw as [|[c col] df]; [done|].
    apply Forall_cons in Hobj as [Hobj _], Hnone as [Hnone _]. simpl in *.
    destruct (textual_or_numeric col); [congruence|done].
Qed.
End metric_columns.

Section upload.
Context `{PyLib}.

Variable read_csv : pystr → result DataFrame.

(** [pd.read_csv] returns no table without a column: where it finds no column
    to parse, it raises EmptyDataError. *)
Hypothesis read_csv_columns :
  ∀ text df_raw, read_csv text = Ok df_raw → df_raw ≠ [].

Lemma detect_columns_read text df_raw :
  read_csv text = Ok df_raw →
  (detect_columns read_csv (Some text)).1 = (select_columns df_raw).1.
Proof.
  intros Hread. unfold detect_columns. rewrite Hread.
  by destruct (select_columns df_raw).
Qed.

(** C3 (as amended).  The checks of an upload have a fixed order: the reading
    (lines 121-125), the state column (lines 129-139), the metric columns
    (lines 143-153); the first that fails is shown and stops the run, so a
    run shows at most one failure and never the missing state column
    together with the missing metric column.  An upload that cannot be read
    shows the failure of the reading alone.  A table that was read with no
    state header and no column of text shows the missing state column alone,
    whatever numeric columns it has; the missing metric column is shown
    exactly when a state column was found and no column is
    numeric-coercible.  No table that was read has zero columns of text and
    zero numeric-coercible columns: it has a column, and a column that is no
    text is numeric-coercible. *)
Theorem detect_columns_single_failure (uploaded : option pystr) :
  (length (detect_columns read_csv uploaded).1 ≤ 1)%nat
  ∧ ¬ (MissingNameColumn ∈ (detect_columns read_csv uploaded).1
       ∧ MissingMetricColumn ∈ (detect_columns read_csv uploaded).1)
  ∧ (∀ text e, uploaded = Some text → read_csv text = Raise e →
       detect_columns read_csv uploaded = ([UnreadableCsv], None))
  ∧ (∀ text df_raw, uploaded = Some text → read_csv text = Ok df_raw →
       (Forall (λ c, ¬ state_header c) (dict_keys df_raw) →
        Forall (λ ccol, is_object ccol.2 = false) df_raw →
        detect_columns read_csv uploaded = ([MissingNameColumn], None))
       ∧ (MissingMetricColumn ∈ (detect_columns read_csv uploaded).1 ↔
          is_Some (detect_state_col df_raw)
          ∧ Forall (λ ccol, ¬ numeric_coercible ccol.2) df_raw)
       ∧ ¬ (Forall (λ ccol, is_object ccol.2 = false) df_raw
            ∧ Forall (λ ccol, ¬ numeric_coercible ccol.2) df_raw)).
Proof.
  assert (length (detect_columns read_csv uploaded).1 ≤ 1)%nat as Hlen.
  { destruct uploaded as [text|]; [|simpl; lia]. simpl.
    destruct (read_csv text) as [df_raw|e] eqn:Hread; [|simpl; lia].
    pose proof (select_columns_failures df_raw) as [Hle _].
    by destruct (select_columns df_raw). }
  split_and!; [done| | |].
  - intros [Hname Hmetric].
    destruct ((detect_columns read_csv uploaded).1) as [|f [|f' fs]]; simpl in Hlen;
      [by apply elem_of_nil in Hname| |lia].
    apply list_elem_of_singleton in Hname, Hmetric. congruence.
  - intros text e -> Hread. unfold detect_columns. by rewrite Hread.
  - intros text df_raw -> Hread.
    pose proof (select_columns_failures df_raw) as (_ & Hname & Hmetric & Hnone).
    split_and!.
    + intros Hno Hobj. unfold detect_columns. rewrite Hread.
      by rewrite (Hname Hno Hobj).
    + by rewrite (detect_columns_read _ _ Hread).
    + intros [Hobj Hnum]. by apply (read_csv_columns _ _ Hread), Hnone.
Qed.

End upload.

Lemma detect_columns_single_failure_witness :
  detect_columns uploads (Some years_csv) = ([MissingNameColumn], None)
  ∧ numeric_cols years_only = [py "2021"; py "2022"].
Proof.
  split; [|by vm_compute].
  assert (∀ text df_raw, uploads text = Ok df_raw → df_raw ≠ []) as Hcolumns.
  { intros text df_raw. unfold uploads. case_decide; [|done]. by intros [= <-]. }
  destruct (detect_columns_single_failure uploads Hcolumns (Some years_csv))
    as (_ & _ & _ & Hread).
  destruct (Hread years_csv years_only) as (Hname & _); [done|by vm_compute|].
  apply Hname.
  - unfold state_header. apply (bool_decide_unpack _). by vm_compute.
  - apply (bool_decide_unpack _). by vm_compute.
Defined.

(** C3 (as stated) fails.  The upload with zero columns of text and zero
    numeric-coercible columns is the one with no column at all, the empty
    file.  The reading refuses it, and the run shows the failure of the
    reading and stops: neither the missing state column nor the missing
    metric column is shown. *)
Lemma detect_columns_empty_upload :
  uploads [] = Raise ValueError
  ∧ detect_columns uploads (Some []) = ([UnreadableCsv], None)
  ∧ MissingNameColumn ∉ (detect_columns uploads (Some [])).1
  ∧ MissingMetricColumn ∉ (detect_columns uploads (Some [])).1.
Proof.
  split_and!; [done..| |]; intros Hin; vm_compute in Hin;
    (by apply list_elem_of_singleton in Hin).
Qed.

(** ** Order of strings *)

Global Instance str_le_total : Total str_le.
Proof.
  intros s. unfold str_le. induction s as [|a s IH]; intros [|b t]; simpl; auto.
  destruct (N.ltb_spec a b), (N.ltb_spec b a), (N.eqb_spec a b), (N.eqb_spec b a);
    auto; lia.
Qed.

Global Instance str_le_trans : Transitive str_le.
Proof.
  intros s. unfold str_le. induction s as [|a s IH]; intros [|b t] [|c u]; simpl; auto;
    try done.
  destruct (N.ltb_spec a b), (N.ltb_spec b c), (N.ltb_spec a c),
    (N.eqb_spec a b), (N.eqb_spec b c), (N.eqb_spec a c); try done; try lia; eauto.
Qed.

Global Instance str_le_antisymm : AntiSymm (=) str_le.
Proof.
  intros s. unfold str_le. induction s as [|a s IH]; intros [|b t]; simpl; try done.
  destruct (N.ltb_spec a b), (N.ltb_spec b a), (N.eqb_spec a b), (N.eqb_spec b a);
    try done; try lia.
  intros. f_equal; auto.
Qed.

Global Instance str_le_refl : Reflexive str_le.
Proof. intros s. by destruct (total str_le s s). Qed.

Lemma sorted_strictly l : NoDup l → strictly_sorted (sorted l).
Proof.
  intros Hnd. unfold strictly_sorted, sorted.
  assert (NoDup (merge_sort str_le l)) as Hnd'
    by (by rewrite merge_sort_Permutation).
  pose proof (StronglySorted_merge_sort str_le l) as Hs.
  induction Hs as [|x l' Hs IH Hx]; [constructor|].
  apply NoDup_cons in Hnd' as [Hx' Hnd']. constructor; [auto|].
  apply Forall_forall. intros y Hy. rewrite Forall_forall in Hx.
  split; [auto|]. intros ->. done.
Qed.

Lemma elem_of_sorted l x : x ∈ sorted l ↔ x ∈ l.
Proof. unfold sorted. by rewrite merge_sort_Permutation. Qed.

(** Two lists in strictly increasing order with the same members are equal. *)
Lemma strictly_sorted_unique l1 l2 :
  strictly_sorted l1 → strictly_sorted l2 → (∀ x, x ∈ l1 ↔ x ∈ l2) → l1 = l2.
Proof.
  intros H1 H2 Hiff.
  assert (∀ l, strictly_sorted l → StronglySorted str_le l ∧ NoDup l) as Hs.
  { induction 1 as [|x l Hl [IH1 IH2] Hx]; [split; constructor|]. split.
    - constructor; [done|]. eapply Forall_impl; [done|]. by intros ? [? _].
    - constructor; [|done]. intros Hin. rewrite Forall_forall in Hx.
      by destruct (Hx x Hin). }
  destruct (Hs _ H1) as [? ?], (Hs _ H2) as [? ?].
  apply (StronglySorted_unique str_le); [done..|].
  by apply NoDup_Permutation.
Qed.

(** ** Results *)

Lemma mapM_Ok {A B} (f : A → result B) l k :
  mapM f l = Ok k ↔ Forall2 (λ x y, f x = Ok y) l k.
Proof.
  revert k. induction l as [|x l IH]; intros k.
  - change (Ok [] = Ok k ↔ Forall2 (λ x y, f x = Ok y) [] k).
    split; [intros; simplify_eq; constructor|by inversion 1].
  - change (match f x with
            | Ok y => match mapM f l with Ok k' => Ok (y :: k') | Raise e => Raise e end
            | Raise e => Raise e
            end = Ok k ↔ Forall2 (λ x y, f x = Ok y) (x :: l) k).
    destruct (f x) as [y|e] eqn:Hx.
    + destruct (mapM f l) as [k'|e] eqn:Hl.
      * split.
        -- intros; simplify_eq. constructor; [done|]. by apply IH.
        -- inversion 1 as [|? y' ? k'' Hy Hk]; simplify_eq.
           assert (y' = y) as -> by congruence. apply IH in Hk. by simplify_eq.
      * split; [done|]. inversion 1 as [|? y' ? k'' Hy Hk]; simplify_eq.
        by apply IH in Hk.
    + split; [done|]. inversion 1; congruence.
Qed.

Lemma mapM_total {A B} (f : A → result B) (g : A → B) l :
  Forall (λ x, f x = Ok (g x)) l → mapM f l = Ok (g <$> l).
Proof.
  intros Hl. apply mapM_Ok. induction Hl; constructor; auto.
Qed.

(** ** Dictionaries *)

Lemma dict_get_set_ne {V} k k' (v : V) d :
  k ≠ k' → dict_get k' (dict_set k v d) = dict_get k' d.
Proof.
  intros Hne. induction d as [|[k0 v0] d IH]; simpl.
  - by rewrite decide_False.
  - destruct (decide (k0 = k)) as [->|]; simpl.
    + by rewrite !decide_False.
    + by rewrite IH.
Qed.

Lemma dict_get_set_eq {V} k (v : V) d : dict_get k (dict_set k v d) = Some v.
Proof.
  induction d as [|[k0 v0] d IH]; simpl.
  - by rewrite decide_True.
  - destruct (decide (k0 = k)) as [->|]; simpl.
    + by rewrite decide_True.
    + by rewrite decide_False.
Qed.

(** ** Aggregation *)

Lemma fadd_zero_l x : fadd fzero x = x.
Proof.
  destruct x; simpl; [done..|]. f_equal. rewrite Z2Qc_inj_0. apply Qcplus_0_l.
Qed.

Lemma float_of_Z_add a b : float_of_Z (a + b) = fadd (float_of_Z a) (float_of_Z b).
Proof. unfold float_of_Z. simpl. by rewrite Z2Qc_inj_add. Qed.

Lemma float_of_Z_0 : float_of_Z 0 = fzero.
Proof. done. Qed.

Lemma rows_where_fmap {A B} (f : A → B) mask xs :
  rows_where mask (f <$> xs) = f <$> rows_where mask xs.
Proof.
  revert xs. induction mask as [|b mask IH]; intros [|x xs]; simpl; try done.
  destruct b; simpl; by rewrite IH.
Qed.

Lemma cells_select_rows mask col :
  cells (select_rows mask col) = rows_where mask (cells col).
Proof. destruct col; simpl; by rewrite ?rows_where_fmap. Qed.



Section aggregate.
Context `{PyLib}.

Lemma aggregate_eq df_raw state_col metric_col names :
  df_get state_col df_raw = Ok names →
  metric_col ≠ state_norm_key →
  aggregate df_raw state_col metric_col =
    metric ← df_get metric_col
      (dict_set state_norm_key (ObjectCol (SStr <$> canonical_names names))
         (dict_set state_raw_key (ObjectCol (SStr <$> state_raw names)) df_raw));
    groupby_sum (canonical_names names) metric.
Proof.
  intros Hnames Hne. unfold aggregate. rewrite Hnames. simpl.
  by rewrite decide_False.
Qed.


End aggregate.

Lemma apply_common_map_ascii `{PyLib} s :
  Forall (λ c, c < 128) s → apply_common_map (SStr s) = canonical_ascii s.
Proof.
  intros Hs. unfold apply_common_map, canonical_ascii.
  by rewrite normalize_text_ascii.
Qed.

(** The canonical names of a column of ASCII text. *)
Lemma canonical_names_ascii `{PyLib} (names : list pystr) :
  Forall (Forall (λ c, c < 128)) names →
  canonical_names (ObjectCol (SStr <$> names)) = (canonical_ascii ∘ strip) <$> names.
Proof.
  intros Hnames. unfold canonical_names, state_raw. simpl.
  rewrite <-!list_fmap_compose. apply Forall_fmap_ext.
  eapply Forall_impl; [done|]. intros s Hs. simpl.
  by apply apply_common_map_ascii, Forall_strip.
Qed.

(** C2. For the records [("Odisha",10), ("Orissa",5), ("Kerala",3)] the
    aggregation gives exactly the mapping [{"orissa": 15, "kerala": 3}]:
    Odisha and Orissa have the canonical name "orissa" and their metrics are
    added; Kerala has an entry of its own. *)
Theorem aggregate_example `{PyLib} :
  apply_common_map (SStr (py "Odisha")) = py "orissa"
  ∧ apply_common_map (SStr (py "Orissa")) = py "orissa"
  ∧ apply_common_map (SStr (py "Kerala")) = py "kerala"
  ∧ ∃ df_agg,
      aggregate example_records (py "State") (py "Cases") = Ok df_agg
      ∧ dict_zip df_agg = {[ py "orissa" := SInt 15; py "kerala" := SInt 3 ]}.
Proof.
  split_and!;
    try (rewrite apply_common_map_ascii
           by (apply (bool_decide_unpack _); vm_compute; exact I);
         vm_compute; reflexivity).
  rewrite (aggregate_eq _ _ _ (ObjectCol (SStr <$> [py "Odisha"; py "Orissa"; py "Kerala"])))
    by done.
  rewrite canonical_names_ascii by (apply (bool_decide_unpack _); vm_compute; exact I).
  eexists. split; [vm_compute; reflexivity|].
  apply map_eq. intros k. vm_compute. reflexivity.
Qed.


(** C5 fails on the code.  The probe of lines 143-150 reads the first 20
    values of a column of text and takes the column as a metric candidate;
    the aggregation then adds the cells as they are, as text: the sums are
    the strings "11111111111111111111" and "x", no numbers, where the claim
    has the text count as numbers or as zero. *)
Theorem aggregate_text_metric `{PyLib} :
  py "Cases" ∈ numeric_cols text_metric_table
  ∧ aggregate text_metric_table (py "State") (py "Cases")
    = Ok [(py "goa", SStr (py "x"));
          (py "kerala", SStr (py "11111111111111111111"))]
  ∧ as_float (SStr (py "11111111111111111111")) = None.
Proof.
  split_and!; [| |done].
  - apply numeric_cols_spec. eexists. split; [right; left|right].
    unfold to_numeric_probe.
    assert (∀ col, take 20 (filter (λ v, isna v = false) (cells (ObjectCol
              (SStr <$> replicate 20 (py "1") ++ col))))
            = replicate 20 (SStr (py "1"))) as -> by done.
    apply forallb_forall. intros v [-> _]%list_elem_of_In%elem_of_replicate.
    apply parses_numeric_digits; [done|].
    apply (bool_decide_unpack _). vm_compute. exact I.
  - rewrite (aggregate_eq _ _ _
      (ObjectCol (SStr <$> replicate 20 (py "Kerala") ++ [py "Goa"]))) by done.
    rewrite canonical_names_ascii by (apply (bool_decide_unpack _); vm_compute; exact I).
    vm_compute. reflexivity.
Qed.

(** ** Reconciliation *)

Lemma dict_zip_fold {V} (l : list (pystr * V)) (m : gmap pystr V) k :
  foldl (λ m kv, <[kv.1 := kv.2]> m) m l !! k =
    match dict_get k (reverse l) with Some v => Some v | None => m !! k end.
Proof.
  revert m. induction l as [|[k' v'] l IH]; intros m; simpl; [done|].
  rewrite IH, reverse_cons. clear IH.
  induction (reverse l) as [|[k0 v0] r IHr]; simpl.
  - destruct (decide (k' = k)) as [->|]; [by rewrite lookup_insert_eq|].
    by rewrite lookup_insert_ne.
  - by destruct (decide (k0 = k)).
Qed.

Lemma dict_zip_lookup {V} (l : list (pystr * V)) k :
  dict_zip l !! k = dict_get k (reverse l).
Proof.
  unfold dict_zip. rewrite dict_zip_fold, lookup_empty. by destruct (dict_get _ _).
Qed.

Lemma dict_zip_elem_of {V} (l : list (pystr * V)) k v :
  dict_zip l !! k = Some v → (k, v) ∈ l.
Proof.
  rewrite dict_zip_lookup. intros ?%dict_get_Some. by apply elem_of_reverse.
Qed.

Lemma dict_zip_dom {V} (l : list (pystr * V)) :
  dom (dict_zip l) = list_to_set l.*1.
Proof.
  apply set_eq. intros k.
  rewrite elem_of_dom, elem_of_list_to_set, dict_zip_lookup.
  rewrite <-not_eq_None_Some, dict_get_None. unfold dict_keys.
  rewrite fmap_reverse, elem_of_reverse. split; [apply dec_stable|by auto].
Qed.

Section reconcile.
Context `{PyLib}.

Lemma py_float_number v x : as_float v = Some x → py_float v = Ok x.
Proof. destruct v; simpl; intros; by simplify_eq. Qed.

Lemma mapM_norm_of feats norms :
  Forall2 (λ feat n, dict_get state_norm_key feat = Some (JScalar (SStr n)))
          feats norms →
  mapM norm_of feats = Ok (Some <$> norms).
Proof.
  intros Hn. apply mapM_Ok. induction Hn as [|feat n ?? Hf]; constructor; [|done].
  unfold norm_of. by rewrite Hf.
Qed.

Lemma omap_id_Some {A} (l : list A) : omap id (Some <$> l) = l.
Proof. induction l; simpl; by f_equal. Qed.

(** C1 (as amended).  For regions that carry their canonical names and an
    aggregate whose values are numbers, reconciliation raises nothing and
    gives every region a [metric_value]: the value of the aggregate for the
    canonical name of the region when it has one, and 0.0 otherwise, which is
    non-negative whenever the values of the aggregate are.  The report of
    unmatched names is the sequence, in strictly increasing order, of the
    canonical names of the aggregate that no region has. *)
Theorem reconcile_total (feats : list feature) (norms : list pystr)
    (df_agg : list (pystr * scalar)) :
  Forall2 (λ feat n, dict_get state_norm_key feat = Some (JScalar (SStr n)))
          feats norms →
  Forall (λ kv, is_Some (as_float kv.2)) df_agg →
  let A := dict_zip df_agg in
  ∃ unmatched,
    reconcile feats df_agg
      = Ok (zip_with (λ feat n,
                dict_set metric_value_key (JScalar (SFloat (metric_of A n))) feat)
              feats norms, unmatched)
    ∧ (∀ n v, A !! n = Some v → as_float v = Some (metric_of A n))
    ∧ (∀ n, A !! n = None → metric_of A n = fzero)
    ∧ ((∀ n v x, A !! n = Some v → as_float v = Some x → fnonneg x) →
       ∀ n, fnonneg (metric_of A n))
    ∧ strictly_sorted unmatched
    ∧ (∀ n, n ∈ unmatched ↔ n ∈ dom A ∧ n ∉ norms)
    ∧ (∀ report, strictly_sorted report →
         (∀ n, n ∈ report ↔ n ∈ dom A ∧ n ∉ norms) → report = unmatched).
Proof.
  intros Hnorms Hnum A.
  assert (∀ n v, A !! n = Some v → is_Some (as_float v)) as HA.
  { intros n v Hv%dict_zip_elem_of. rewrite Forall_forall in Hnum.
    apply (Hnum _ Hv). }
  assert (fnonneg fzero) as Hz.
  { unfold fnonneg, fzero, float_of_Z. rewrite Z2Qc_inj_0. apply Qcle_refl. }
  eexists. split_and!.
  - unfold reconcile, geo_norm_set. rewrite (mapM_norm_of _ norms) by done.
    simpl. rewrite omap_id_Some.
    assert (mapM (set_metric (dict_zip df_agg)) feats
      = Ok (zip_with (λ feat n,
                dict_set metric_value_key (JScalar (SFloat (metric_of A n))) feat)
              feats norms)) as ->; [|done].
    apply mapM_Ok. induction Hnorms as [|feat n feats norms Hf _ IH]; simpl;
      constructor; [|done].
    unfold set_metric, norm_of. rewrite Hf. simpl. fold A. unfold metric_of.
    destruct (A !! n) as [v|] eqn:Hv; simpl; [|done].
    destruct (HA _ _ Hv) as [x Hx]. by rewrite (py_float_number _ _ Hx), Hx.
  - intros n v Hv. unfold metric_of. rewrite Hv.
    by destruct (HA _ _ Hv) as [x ->].
  - intros n Hn. unfold metric_of. by rewrite Hn.
  - intros Hpos n. unfold metric_of. destruct (A !! n) as [v|] eqn:Hv; [|done].
    destruct (HA _ _ Hv) as [x Hx]. rewrite Hx. eauto.
  - apply sorted_strictly, NoDup_elements.
  - intros n. rewrite elem_of_sorted, elem_of_elements, elem_of_difference.
    unfold A. by rewrite dict_zip_dom, (elem_of_list_to_set (C:=gset pystr) n norms).
  - intros report Hsorted Hreport. apply strictly_sorted_unique; [done| |].
    + apply sorted_strictly, NoDup_elements.
    + intros n. rewrite Hreport, elem_of_sorted, elem_of_elements, elem_of_difference.
      unfold A. by rewrite dict_zip_dom, (elem_of_list_to_set (C:=gset pystr) n norms).
Qed.
End reconcile.

(** ** Data preparation *)

Section data_prep.
Context `{PyLib} `{PandasLib}.

Lemma coerced_lookup schema df c :
  schema_coerce schema = true →
  dict_get c (coerced schema df)
  = (λ col, match dict_get c (schema_columns schema) with
            | Some spec => default col (coerce_series (col_dtype spec) col)
            | None => col
            end) <$> dict_get c df.
Proof.
  intros Hc. unfold coerced. rewrite Hc.
  induction df as [|[c' col'] df IH]; [done|]. rewrite fmap_cons.
  cbn [dict_get fst snd]. destruct (decide (c' = c)) as [->|Hne].
  - destruct (dict_get c (schema_columns schema)); simpl; by rewrite decide_True.
  - destruct (dict_get c' (schema_columns schema)); simpl;
      by rewrite decide_False.
Qed.

Lemma forallb_Forall {A} (f : A → bool) l : forallb f l = true ↔ Forall (λ x, f x = true) l.
Proof. rewrite forallb_forall, Forall_forall. by setoid_rewrite list_elem_of_In. Qed.

(** C10. [load_data] returns a frame only when the table read passes the
    validation against [SCHEMA], and it is the validated frame: its column
    "2022" holds integers that are at least 0, its column "State/UT" holds
    strings.  In every other case it raises: the error of [read_csv], or
    all failures of the validation together; it returns nothing then. *)
Theorem load_data_validated (read_csv : pystr → result DataFrame) (path : pystr) :
  match load_data read_csv path with
  | Ok df =>
      (∃ raw, read_csv path = Ok raw ∧ schema_errors SCHEMA raw = []
              ∧ df = coerced SCHEMA raw)
      ∧ (∃ xs, dict_get (py "2022") df = Some (IntCol xs)
               ∧ Forall (λ x, 0 ≤ x)%Z xs)
      ∧ (∃ vs, dict_get (py "State/UT") df = Some (ObjectCol vs)
               ∧ Forall (λ v, ∃ s, v = SStr s) vs)
  | Raise e =>
      read_csv path = Raise e
      ∨ ∃ raw, read_csv path = Ok raw ∧ schema_errors SCHEMA raw ≠ []
               ∧ e = SchemaErrors (schema_errors SCHEMA raw)
  end.
Proof.
  unfold load_data. destruct (read_csv path) as [raw|e]; simpl; [|by left].
  unfold validate. destruct (schema_errors SCHEMA raw) as [|err errs] eqn:Herrs; simpl.
  2:{ right. exists raw. by rewrite Herrs. }
  split; [by exists raw|].
  unfold schema_errors in Herrs. apply app_eq_nil in Herrs as [_ Herrs].
  simpl in Herrs.
  apply app_eq_nil in Herrs as [_ Herrs].
  apply app_eq_nil in Herrs as [Hstate Herrs].
  apply app_eq_nil in Herrs as [Hyear _].
  unfold column_errors in Hstate, Hyear. split.
  - destruct (dict_get (py "2022") (coerced SCHEMA raw)) as [col|]; [|done].
    apply app_eq_nil in Hyear as [Hdtype Hyear].
    apply app_eq_nil in Hyear as [_ Hcheck]. simpl in *.
    destruct col as [xs| | |]; try done. exists xs. split; [done|].
    destruct (forallb _ _) eqn:Hall; [|done].
    apply forallb_Forall in Hall.
    assert (filter (λ v, isna v = false) (SInt <$> xs) = SInt <$> xs) as Hf.
    { clear. induction xs; [done|]. rewrite fmap_cons, filter_cons_True by done.
      by f_equal. }
    change (cells (IntCol xs)) with (SInt <$> xs) in Hall.
    rewrite Hf in Hall. apply Forall_fmap in Hall.
    eapply Forall_impl; [done|]. intros x Hx. simpl in Hx.
    by apply bool_decide_eq_true in Hx.
  - rewrite (coerced_lookup SCHEMA) in Hstate |- * by done.
    change (dict_get (py "State/UT") (schema_columns SCHEMA))
      with (Some {| col_dtype := DStr; col_checks := []; col_nullable := false |})
      in Hstate |- *.
    destruct (dict_get (py "State/UT") raw) as [col0|]; [|done]. simpl in *.
    eexists. split; [done|].
    destruct (has_na _) eqn:Hhas; [done|].
    unfold has_na in Hhas. simpl in Hhas.
    apply Forall_fmap, Forall_forall. intros v Hin. simpl.
    destruct (isna v) eqn:Hv; [|by eexists].
    assert (existsb isna ((λ v, if isna v then v else SStr (py_str v)) <$> cells col0)
            = true) as Hex; [|congruence].
    apply existsb_exists. exists v. split; [|done].
    apply list_elem_of_In, list_elem_of_fmap. exists v. by rewrite Hv.
Qed.
End data_prep.

Section frame.
Context `{PyLib} `{PandasLib}.

(** Every run of [ensure_percentage_column] changes the store in one place:
    the new object made by [df.copy()]. *)
Lemma ensure_percentage_column_run (h : heap) df d year_col pct_col :
  h !! df = Some d →
  ∃ r d', ensure_percentage_column df year_col pct_col h
          = (r, <[fresh (dom h) := d']> h)
        ∧ (∀ out, r = Ok out → out = fresh (dom h))
        ∧ (d' = d ∨ ∃ pct, d' = dict_set pct_col pct d).
Proof.
  intros Hd. unfold ensure_percentage_column, df_copy, getitem, setitem.
  unfold mbind, prog_bind, deref, alloc, store, lift, mret, prog_ret.
  rewrite Hd. set (out := fresh (dom h)). rewrite !lookup_insert_eq.
  assert (∀ r : result ref, (∀ o, r = Ok o → o = out) →
    ∃ r' d', (r, <[out:=d]> h) = (r', <[out:=d']> h)
      ∧ (∀ o, r' = Ok o → o = out) ∧ (d' = d ∨ ∃ pct, d' = dict_set pct_col pct d))
    as Hsame by (intros r Hr; exists r, d; auto).
  assert (∀ e, ∃ r' d', (Raise e, <[out:=d]> h) = (r', <[out:=d']> h)
      ∧ (∀ o, r' = Ok o → o = out) ∧ (d' = d ∨ ∃ pct, d' = dict_set pct_col pct d))
    as Hraise by (intros e; by apply Hsame).
  assert (∀ pct, ∃ r' d',
      (Ok out, <[out:=dict_set pct_col pct d]> (<[out:=d]> h)) = (r', <[out:=d']> h)
      ∧ (∀ o, r' = Ok o → o = out) ∧ (d' = d ∨ ∃ pct, d' = dict_set pct_col pct d))
    as Hset.
  { intros pct. exists (Ok out), (dict_set pct_col pct d). rewrite insert_insert_eq.
    split_and!; [done|by intros; simplify_eq|eauto]. }
  clear Hd. case_bool_decide; simpl; rewrite !lookup_insert_eq; simpl.
  - destruct (df_get year_col d) as [year|e]; [|done].
    destruct (series_sum year) as [total|e]; [|done].
    destruct (series_truediv year total) as [ratio|e]; [|done].
    destruct (series_mul ratio _) as [pct|e]; [|done]. simpl.
    rewrite ?lookup_insert_eq. apply Hset.
  - destruct (df_get pct_col d) as [col|e]; [|done]. simpl.
    destruct (has_na col); [|by apply Hsame; intros; simplify_eq].
    rewrite !lookup_insert_eq. simpl.
    destruct (df_get year_col d) as [year|e]; [|done].
    destruct (series_sum year) as [total|e]; [|done].
    destruct (series_truediv year total) as [ratio|e]; [|done].
    destruct (series_mul ratio _) as [pct|e]; [|done]. simpl.
    rewrite ?lookup_insert_eq. apply Hset.
Qed.

(** C9. [ensure_percentage_column] works on a copy: whatever it returns or
    raises, the frame it was given holds the columns and values it held
    before, and so does every other object of the store; the frame it
    returns is a new object. *)
Theorem ensure_percentage_column_frame (h : heap) df d year_col pct_col :
  h !! df = Some d →
  ∃ r h', ensure_percentage_column df year_col pct_col h = (r, h')
    ∧ h' !! df = Some d
    ∧ (∀ other, other ∈ dom h → h' !! other = h !! other)
    ∧ (∀ out, r = Ok out → out ≠ df ∧ out ∉ dom h ∧ is_Some (h' !! out)).
Proof.
  intros Hd.
  destruct (ensure_percentage_column_run h df d year_col pct_col Hd)
    as (r & d' & Hrun & Hout & _).
  pose proof (is_fresh (dom h)) as Hfresh.
  assert (∀ other, other ∈ dom h → <[fresh (dom h):=d']> h !! other = h !! other)
    as Hframe.
  { intros other Hin. apply lookup_insert_ne. by intros <-. }
  exists r, (<[fresh (dom h) := d']> h). split_and!; [done| |done|].
  - rewrite Hframe; [done|]. by apply elem_of_dom.
  - intros out ->%Hout. split_and!; [|done|by rewrite lookup_insert_eq].
    intros Heq. apply Hfresh. rewrite Heq. by apply elem_of_dom.
Qed.
End frame.

(** *** Examples of reconciliation *)

Section annotate.
Context `{PyLib}.

Lemma annotate_feature_norm key props :
  ∃ n, dict_get state_norm_key (annotate_feature key props) = Some (JScalar (SStr n)).
Proof. unfold annotate_feature. eexists. apply dict_get_set_eq. Qed.

(** The loop of lines 103-107 gives every region a canonical name. *)
Lemma annotate_features_norms feats regions :
  annotate_features feats = Ok regions →
  ∃ norms, Forall2 (λ feat n,
    dict_get state_norm_key feat = Some (JScalar (SStr n))) regions norms.
Proof.
  unfold annotate_features. destruct feats as [|sample feats']; [done|].
  destruct (detect_state_key_from_props sample) as [key|]; [|done].
  intros Heq.
  assert (regions = annotate_feature key <$> sample :: feats') as ->
    by (by injection Heq).
  clear Heq. induction (sample :: feats') as [|feat l [norms IH]].
  - exists []. constructor.
  - destruct (annotate_feature_norm key feat) as [n Hn].
    exists (n :: norms). by constructor.
Qed.
End annotate.

Lemma reconcile_total_witness :
  ∃ regions unmatched,
    annotate_features boundary_features = Ok regions
    ∧ reconcile regions uploaded_aggregate
      = Ok (zip_with (λ feat x,
               dict_set metric_value_key (JScalar (SFloat (float_of_Z x))) feat)
             regions [100; 40; 0]%Z, unmatched)
    ∧ strictly_sorted unmatched.
Proof.
  destruct (reconcile_total
    (annotate_feature (py "name") <$> boundary_features)
    [py "orissa"; py "kerala"; py "goa"] uploaded_aggregate)
    as (unmatched & Hr & _ & _ & _ & Hs & _ & _).
  - repeat constructor.
  - repeat constructor; by eexists.
  - exists (annotate_feature (py "name") <$> boundary_features), unmatched.
    split_and!; [vm_compute; reflexivity| |done].
    rewrite Hr. vm_compute. reflexivity.
Defined.

(** C1 (as stated) fails where the aggregate holds a negative value: the
    region gets that value, which is not non-negative. *)
Lemma reconcile_negative_metric :
  reconcile [[(state_norm_key, JScalar (SStr (py "kerala")))]] negative_aggregate
  = Ok ([[(state_norm_key, JScalar (SStr (py "kerala")));
          (metric_value_key, JScalar (SFloat (float_of_Z (-5))))]], [])
  ∧ ¬ fnonneg (float_of_Z (-5)).
Proof. split; [vm_compute; reflexivity|]. intros Hle. by vm_compute in Hle. Qed.

(** *** Examples of data preparation *)

Section rejects.
Context `{PyLib} `{PandasLib}.

(** A table with a negative value in its column "2022" is not returned. *)
Lemma load_data_rejects_negative read_csv path raw xs :
  read_csv path = Ok raw →
  dict_get (py "2022") raw = Some (IntCol xs) →
  Exists (λ x, x < 0)%Z xs →
  ∃ errs, load_data read_csv path = Raise (SchemaErrors errs)
        ∧ CheckFailed (py "2022") (Ge 0) ∈ errs.
Proof.
  intros Hread Hcol Hneg. unfold load_data. rewrite Hread. simpl. unfold validate.
  assert (CheckFailed (py "2022") (Ge 0) ∈ schema_errors SCHEMA raw) as Hin.
  { unfold schema_errors. apply elem_of_app. right. simpl.
    do 2 (apply elem_of_app; right). apply elem_of_app. left.
    unfold column_errors. rewrite (coerced_lookup SCHEMA) by done. rewrite Hcol.
    simpl. rewrite astype_int_int. simpl.
    destruct (forallb _ _) eqn:Hall; [|apply elem_of_app; right; left].
    apply forallb_Forall in Hall. exfalso.
    apply Exists_exists in Hneg as (x & Hx & Hlt).
    rewrite Forall_forall in Hall.
    assert (SInt x ∈ filter (λ v, isna v = false) (cells (IntCol xs))) as Hx'.
    { apply list_elem_of_filter. split; [done|]. by apply list_elem_of_fmap_2. }
    specialize (Hall _ Hx'). simpl in Hall. apply bool_decide_eq_true in Hall. lia. }
  destruct (schema_errors SCHEMA raw) as [|err errs]; [by apply elem_of_nil in Hin|].
  by eexists.
Qed.
End rejects.

Example load_data_accepts :
  load_data files (py "crime.csv")
  = Ok [(py "Sl. No.", ObjectCol [SInt 1; SInt 2]);
        (py "State/UT", ObjectCol [SStr (py "Kerala"); SStr (py "Goa")]);
        (py "2022", IntCol [30; 70]%Z);
        (py "percentage", FloatCol [FNaN; FNaN])].
Proof. vm_compute. reflexivity. Qed.

Example load_data_rejects :
  load_data files (py "bad.csv")
  = Raise (SchemaErrors [NotNullable (py "State/UT");
                         CheckFailed (py "2022") (Ge 0);
                         ColumnNotInDataframe (py "percentage")])
  ∧ load_data files (py "missing.csv") = Raise OSError.
Proof. split; vm_compute; reflexivity. Qed.

Lemma ensure_percentage_column_frame_witness :
  ∃ r h',
    ensure_percentage_column 1%positive (py "2022") (py "percentage")
      {[ 1%positive := crime_table ]} = (r, h')
    ∧ r = Ok 2%positive
    ∧ h' !! 1%positive = Some crime_table
    ∧ h' !! 2%positive
      = Some (dict_set (py "percentage")
                (FloatCol ((λ x, fmul (fdiv (float_of_Z x) (float_of_Z 100))
                                      (float_of_Z 100)) <$> [30; 70]%Z))
                crime_table).
Proof.
  destruct (ensure_percentage_column_frame {[ 1%positive := crime_table ]}
              1%positive crime_table (py "2022") (py "percentage"))
    as (r & h' & Hrun & Hdf & _); [done|].
  exists r, h'. vm_compute in Hrun. injection Hrun as <- <-.
  split_and!; [done..|]. vm_compute. reflexivity.
Defined.

Lemma detect_state_col_priority_witness :
  detect_state_col state_table = Some (py "Name of State/UT")
  ∧ detect_state_col [(py "Name", ObjectCol []); (py "2022", IntCol []);
                      (py "Region", ObjectCol [])] = Some (py "Name").
Proof.
  split.
  - apply (detect_state_col_priority state_table).
    exists [py "Sl. No."], [py "2022"]. split_and!; [done| |].
    + right. apply contains_substring. vm_compute. reflexivity.
    + repeat constructor. unfold state_header. rewrite <-!contains_substring.
      vm_compute. by intros [|].
  - apply (detect_state_col_priority []).
Defined.

Lemma annotate_features_norms_witness :
  ∃ regions norms, annotate_features boundary_features = Ok regions
    ∧ Forall2 (λ feat n,
        dict_get state_norm_key feat = Some (JScalar (SStr n))) regions norms.
Proof.
  destruct (annotate_features_norms boundary_features
              (annotate_feature (py "name") <$> boundary_features))
    as [norms Hnorms]; [vm_compute; reflexivity|].
  eexists _, norms. split; [vm_compute; reflexivity|exact Hnorms].
Defined.

Lemma load_data_rejects_negative_witness :
  ∃ errs, load_data files (py "bad.csv") = Raise (SchemaErrors errs)
        ∧ CheckFailed (py "2022") (Ge 0) ∈ errs.
Proof.
  apply (load_data_rejects_negative files (py "bad.csv") bad_table [30; -70]%Z);
    [done..|].
  apply Exists_cons_tl, Exists_cons_hd. lia.
Defined.

(** * Further properties *)

(** ** The words of a name *)

Lemma split_go_spaces sp : Forall (λ c, isspace c = true) sp → split_go sp = ([], []).
Proof. induction 1 as [|c sp Hc _ IH]; simpl; [done|]. by rewrite IH, Hc. Qed.

Lemma split_go_app_spaces s sp :
  Forall (λ c, isspace c = true) sp → split_go (s ++ sp) = split_go s.
Proof.
  intros Hsp. induction s as [|c s IH]; simpl; [by apply split_go_spaces|].
  by rewrite IH.
Qed.

Lemma lstrip_spaces s : ∃ sp, Forall (λ c, isspace c = true) sp ∧ s = sp ++ lstrip s.
Proof.
  induction s as [|c s (sp & Hsp & IH)]; simpl; [by exists []|].
  destruct (isspace c) eqn:Hc; [|by exists []].
  exists (c :: sp). split; [by constructor|]. simpl. by f_equal.
Qed.

Lemma split_lstrip s : split (lstrip s) = split s.
Proof.
  induction s as [|c s IH]; simpl; [done|]. destruct (isspace c) eqn:Hc; [|done].
  rewrite IH. unfold split. simpl. rewrite Hc. by destruct (split_go s).
Qed.

Lemma split_rstrip s : split (rstrip s) = split s.
Proof.
  unfold rstrip. destruct (lstrip_spaces (reverse s)) as (sp & Hsp & Hs).
  apply (f_equal reverse) in Hs. rewrite reverse_involutive, reverse_app in Hs.
  rewrite Hs at 2. unfold split. rewrite split_go_app_spaces; [done|].
  by apply Forall_reverse.
Qed.

Lemma split_strip s : split (strip s) = split s.
Proof. unfold strip. by rewrite split_rstrip, split_lstrip. Qed.

Lemma replace1_cons old new c s :
  replace1 old new (c :: s) = (if c =? old then new else [c]) ++ replace1 old new s.
Proof. done. Qed.

Lemma replace1_nil_inv old new s : new ≠ [] → replace1 old new s = [] → s = [].
Proof.
  intros Hnew. destruct s as [|c s]; [done|]. rewrite replace1_cons.
  destruct (c =? old); [|done]. by destruct new.
Qed.

Lemma cons_word_fmap (f : pystr → pystr) w ws :
  (f w = [] ↔ w = []) → cons_word (f w) (f <$> ws) = f <$> cons_word w ws.
Proof. intros Hf. destruct w as [|c w]; simpl; [by rewrite (proj2 Hf)|].
  destruct (f (c :: w)) eqn:E; [|done]. by pose proof (proj1 Hf eq_refl). Qed.

(** The replacement of a code point that is no white space by a text without
    white space is made word by word. *)
Lemma split_replace1 old new s :
  isspace old = false → new ≠ [] → Forall (λ c, isspace c = false) new →
  split (replace1 old new s) = replace1 old new <$> split s.
Proof.
  intros Hold Hne Hnew.
  assert (∀ w, replace1 old new w = [] ↔ w = []) as Hnil.
  { intros w. split; [by apply replace1_nil_inv|by intros ->]. }
  assert (split_go (replace1 old new s)
          = (replace1 old new (split_go s).1, replace1 old new <$> (split_go s).2))
    as Hgo.
  { induction s as [|c s IH]; [done|]. rewrite replace1_cons. simpl.
    destruct (split_go s) as [w ws]; simpl in *.
    destruct (N.eqb_spec c old) as [->|Hc].
    - rewrite split_go_app, IH, Hold by done. cbn [fst snd].
      by rewrite replace1_cons, N.eqb_refl.
    - simpl. rewrite IH. apply N.eqb_neq in Hc.
      destruct (isspace c); simpl; rewrite ?Hc; [|done].
      f_equal. by apply cons_word_fmap. }
  unfold split. rewrite Hgo. destruct (split_go s) as [w ws]; simpl.
  by apply cons_word_fmap.
Qed.

Lemma replace1_fmap (f : N → N) old new s :
  (∀ c, f c = old ↔ c = old) → f <$> new = new →
  f <$> replace1 old new s = replace1 old new (f <$> s).
Proof.
  intros Hf Hnew. induction s as [|c s IH]; [done|].
  rewrite fmap_cons, !replace1_cons, fmap_app, IH. f_equal.
  destruct (N.eqb_spec c old) as [->|Hc].
  - rewrite (proj2 (Hf old)) by done. by rewrite N.eqb_refl.
  - destruct (N.eqb_spec (f c) old) as [Hfc|]; [by destruct Hc; apply Hf|done].
Qed.

Lemma lower_ascii_amp_iff c : lower_ascii c = 38 ↔ c = 38.
Proof. unfold lower_ascii. cmp_cases. Qed.

Section words.
Context `{PyLib}.

Lemma normalize_text_words_eq (s : pystr) :
  normalize_text (SStr s)
  = join [32] ((λ w, lower_ascii <$> replace1 38 (py "and") w) <$> split (ascii_fold s)).
Proof.
  unfold normalize_text. simpl.
  assert (Forall (λ c, c < 128) (replace1 38 (py "and") (strip (ascii_fold s)))) as Hr.
  { apply Forall_replace1; [by repeat constructor|]. intros c _ Hc. revert c Hc.
    apply Forall_forall, Forall_strip, ascii_fold_lt. }
  rewrite str_lower_ascii
    by (apply Forall_join; [by repeat constructor|by apply Forall_split]).
  rewrite fmap_join, split_replace1, split_strip by (done || by repeat constructor).
  by rewrite <-!list_fmap_compose.
Qed.

End words.

(** X3. [normalize_text] in closed form: a missing value gives the empty
    string; every other value gives the words of its ASCII fold, each with
    its ampersands replaced by "and" and its capitals lowered, joined by single
    spaces.  (So [strip] adds nothing to [split].) *)
Theorem normalize_text_words `{PyLib} (s : scalar) :
  normalize_text s
  = if isna s then []
    else join [32] ((λ w, lower_ascii <$> replace1 38 (py "and") w)
                      <$> split (ascii_fold (py_str s))).
Proof.
  destruct (isna s) eqn:Hs; [unfold normalize_text; by rewrite Hs|].
  rewrite <-normalize_text_words_eq. unfold normalize_text. by rewrite Hs.
Qed.

(** X5. Two ASCII names whose words agree up to the case of the letters,
    whatever white space stands around and between the words, have the same
    normal form. *)
Theorem normalize_text_case_space `{PyLib} (s t : pystr) :
  Forall (λ c, c < 128) s → Forall (λ c, c < 128) t →
  fmap (M:=list) lower_ascii <$> split s = fmap (M:=list) lower_ascii <$> split t →
  normalize_text (SStr s) = normalize_text (SStr t).
Proof.
  intros Hs Ht Hwords. rewrite !normalize_text_words_eq, !ascii_fold_ascii by done.
  assert (∀ u, (λ w, lower_ascii <$> replace1 38 (py "and") w) <$> split u
             = replace1 38 (py "and") <$> (fmap (M:=list) lower_ascii <$> split u)) as Hu.
  { intros u. rewrite <-list_fmap_compose. apply list_fmap_ext. intros _ w _. simpl.
    apply replace1_fmap; [apply lower_ascii_amp_iff|done]. }
  by rewrite !Hu, Hwords.
Qed.

Lemma normalize_text_case_space_witness :
  normalize_text (SStr (py "  ANDAMAN   and Nicobar "))
  = normalize_text (SStr (py "Andaman And NICOBAR")).
Proof.
  apply normalize_text_case_space;
    [apply (bool_decide_unpack _); vm_compute; exact I..|vm_compute; reflexivity].
Defined.

Lemma COMMON_NAME_MAP_closed :
  Forall (λ kv, default kv.2 (dict_get kv.2 COMMON_NAME_MAP) = kv.2) COMMON_NAME_MAP.
Proof. apply (bool_decide_unpack _). vm_compute. exact I. Qed.

(** X6. The alias table has no chains: the canonical name of a canonical
    name is that name. *)
Theorem apply_common_map_idempotent `{PyLib} (name : scalar) :
  apply_common_map (SStr (apply_common_map name)) = apply_common_map name.
Proof.
  unfold apply_common_map at 2 3.
  destruct (dict_get _ _) as [v|] eqn:Hget; simpl.
  - apply dict_get_Some in Hget.
    pose proof COMMON_NAME_MAP_normal as Hnormal.
    pose proof COMMON_NAME_MAP_closed as Hclosed.
    rewrite Forall_forall in Hnormal, Hclosed.
    unfold apply_common_map. rewrite (normal_fixed v) by apply (Hnormal _ Hget).
    apply (Hclosed _ Hget).
  - unfold apply_common_map.
    rewrite (normal_fixed (normalize_text name)) by apply normalize_text_normal.
    by rewrite Hget.
Qed.

Lemma dict_get_filter {V} (P : pystr → Prop) `{!∀ k, Decision (P k)} k (d : dict V) :
  P k → dict_get k (filter (λ kv, P kv.1) d) = dict_get k d.
Proof.
  intros Hk. induction d as [|[k' v] d IH]; [done|]. rewrite filter_cons. simpl.
  destruct (decide (k' = k)) as [->|Hne].
  - rewrite decide_True by done. simpl. by rewrite decide_True.
  - case_decide; simpl; [by rewrite decide_False|done].
Qed.

(** X7. No normal form holds an ampersand, so the two entries of the alias
    table under a key with an ampersand are never looked up: the canonical
    name is the same without them. *)
Theorem ampersand_keys_unused `{PyLib} (name : scalar) :
  (∀ k, 38 ∈ k → normalize_text name ≠ k)
  ∧ apply_common_map name
    = default (normalize_text name)
        (dict_get (normalize_text name)
           (filter (λ kv, 38 ∉ kv.1) COMMON_NAME_MAP))
  ∧ (filter (λ kv, 38 ∈ kv.1) COMMON_NAME_MAP).*1
    = [py "andaman & nicobar islands"; py "dadra & nagar haveli and daman & diu"].
Proof.
  assert (38 ∉ normalize_text name) as Hamp.
  { destruct (normalize_text_normal name) as [_ Hn]. rewrite Forall_forall in Hn.
    intros Hin. by destruct (Hn _ Hin) as (_ & ? & _). }
  split_and!.
  - by intros k Hk <-.
  - pose proof (dict_get_filter (λ k, 38 ∉ k) _ COMMON_NAME_MAP Hamp) as Hget.
    simpl in Hget. unfold apply_common_map. simpl. by rewrite Hget.
  - by vm_compute.
Qed.

(** ** The annotation of the regions *)

Section annotation.
Context `{PyLib}.

Lemma detect_state_key_raises props e :
  detect_state_key_from_props props = Raise e → props = [] ∧ e = IndexError.
Proof.
  unfold detect_state_key_from_props.
  destruct (preferred_match _ _); [done|].
  destruct (list_find _ _) as [[? [? ?]]|]; [done|].
  destruct props as [|[k v] props]; simpl; [|done]. by intros [= <-].
Qed.

Lemma state_keys_ne : state_raw_key ≠ state_norm_key.
Proof. done. Qed.

(** X4. The annotation takes the key from the first feature and gives every
    feature [__state_raw], the stripped text of its value under that key (the
    empty string when the feature lacks the key), and [__state_norm], the
    canonical name of that text; every other property stays as it was. *)
Theorem annotate_features_frame (feats regions : list feature) :
  annotate_features feats = Ok regions →
  ∃ sample state_prop_key,
    head feats = Some sample
    ∧ detect_state_key_from_props sample = Ok state_prop_key
    ∧ Forall2 (λ feat region,
        let raw_name :=
          match dict_get state_prop_key feat with
          | Some v => strip (json_str v)
          | None => []
          end in
        dict_get state_raw_key region = Some (JScalar (SStr raw_name))
        ∧ dict_get state_norm_key region
          = Some (JScalar (SStr (apply_common_map (SStr raw_name))))
        ∧ ∀ k, k ≠ state_raw_key → k ≠ state_norm_key →
               dict_get k region = dict_get k feat)
      feats regions.
Proof.
  unfold annotate_features. destruct feats as [|sample feats]; [done|].
  destruct (detect_state_key_from_props sample) as [key|] eqn:Hkey; [|done].
  intros Heq.
  assert (regions = annotate_feature key <$> sample :: feats) as ->
    by (by injection Heq).
  exists sample, key. split_and!; [done..|].
  apply Forall2_fmap_r, Forall_Forall2_diag, Forall_forall. intros feat _.
  unfold compose, annotate_feature. cbn beta zeta.
  assert (strip (json_str (default (JScalar (SStr [])) (dict_get key feat)))
          = match dict_get key feat with Some v => strip (json_str v) | None => [] end)
    as -> by (by destruct (dict_get key feat)).
  split_and!.
  - rewrite dict_get_set_ne by (by apply not_eq_sym, state_keys_ne).
    apply dict_get_set_eq.
  - apply dict_get_set_eq.
  - intros k Hraw Hnorm. by rewrite !dict_get_set_ne by done.
Qed.

End annotation.

Lemma annotate_features_frame_witness :
  ∃ regions, annotate_features boundary_features = Ok regions
    ∧ Forall2 (λ feat region,
        is_Some (dict_get state_raw_key region)
        ∧ dict_get (py "name") region = dict_get (py "name") feat)
      boundary_features regions.
Proof.
  eexists. split; [vm_compute; reflexivity|].
  destruct (annotate_features_frame boundary_features
              (annotate_feature (py "name") <$> boundary_features))
    as (sample & key & Hsample & Hkey & Hall); [vm_compute; reflexivity|].
  eapply Forall2_impl; [exact Hall|]. intros feat region (Hraw & _ & Hframe).
  split; [by eexists|by apply Hframe].
Defined.

(** ** The metric candidates *)

Lemma mapM_Raise {A B} (f : A → result B) l e :
  mapM f l = Raise e → ∃ x, x ∈ l ∧ f x = Raise e.
Proof.
  induction l as [|x l IH]; [done|].
  change (match f x with
          | Ok y => match mapM f l with Ok k' => Ok (y :: k') | Raise e => Raise e end
          | Raise e => Raise e
          end = Raise e → ∃ x0, x0 ∈ x :: l ∧ f x0 = Raise e).
  destruct (f x) as [y|e'] eqn:Hx.
  - destruct (mapM f l) as [k|e'']; [done|]. intros [= ->].
    destruct IH as (x0 & ? & ?); [done|]. exists x0. split; [by right|done].
  - intros [= ->]. exists x. split; [by left|done].
Qed.

Lemma dict_get_is_Some {V} k (d : dict V) : is_Some (dict_get k d) ↔ k ∈ dict_keys d.
Proof.
  rewrite <-not_eq_None_Some, dict_get_None. split; [apply dec_stable|by auto].
Qed.

Lemma dict_get_NoDup {V} k (v : V) d :
  NoDup (dict_keys d) → (k, v) ∈ d → dict_get k d = Some v.
Proof.
  unfold dict_keys. induction d as [|[k' v'] d IH]; simpl.
  - by intros _ ?%elem_of_nil.
  - intros [Hk' Hd]%NoDup_cons [?|Hin]%elem_of_cons; simplify_eq.
    + by rewrite decide_True.
    + rewrite decide_False; [by apply IH|]. intros ->.
      apply Hk'. by apply (list_elem_of_fmap_2 fst) in Hin.
Qed.

Lemma dict_keys_set {V} k (v : V) d :
  dict_keys (dict_set k v d)
  = if decide (k ∈ dict_keys d) then dict_keys d else dict_keys d ++ [k].
Proof.
  unfold dict_keys. induction d as [|[k' v'] d IH]; [done|]. cbn [dict_set].
  destruct (decide (k' = k)) as [->|Hne]; rewrite !fmap_cons; cbn [fst].
  - rewrite decide_True by left. done.
  - rewrite IH. destruct (decide (k ∈ d.*1)) as [Hin|Hin].
    + rewrite decide_True by (by right). done.
    + rewrite decide_False; [done|]. by intros [?|?]%elem_of_cons.
Qed.

Lemma dict_keys_set_subseteq {V} k (v : V) d : dict_keys d ⊆ dict_keys (dict_set k v d).
Proof.
  rewrite dict_keys_set. case_decide; [done|]. by apply list_subseteq_app_l.
Qed.

Lemma py_add_raises a b e : py_add a b = Raise e → e = TypeError.
Proof.
  unfold py_add.
  destruct a, b; simpl; try done; try (by intros [= <-]);
    repeat case_match; try done; by intros [= <-].
Qed.

Lemma group_sum_raises col e : group_sum col = Raise e → e = TypeError.
Proof.
  destruct col as [xs|xs|xs|xs]; simpl; [done..|].
  destruct (filter _ xs) as [|v vs]; [done|].
  assert (∀ acc : result scalar,
    (∀ e, acc = Raise e → e = TypeError) →
    foldl (λ acc x, a ← acc; py_add a x) acc vs = Raise e → e = TypeError) as Hfold.
  { induction vs as [|x vs IH]; intros acc Hacc; simpl; [by apply Hacc|].
    apply IH. intros e'. destruct acc as [a|e'']; simpl.
    - apply py_add_raises.
    - apply Hacc. }
  by apply Hfold.
Qed.

Lemma NoDup_filter_keys {V} (P : pystr * V → Prop) `{!∀ x, Decision (P x)} (l : dict V) :
  NoDup l.*1 → NoDup (filter P l).*1.
Proof.
  induction l as [|[c v] l IH]; [done|]. rewrite fmap_cons, filter_cons.
  intros [Hc Hnd]%NoDup_cons. case_decide; [|by auto].
  rewrite fmap_cons. apply NoDup_cons. split; [|by auto].
  intros ([c' v'] & Heq & [_ Hin]%list_elem_of_filter)%list_elem_of_fmap.
  simpl in *. subst c'. apply Hc. by apply (list_elem_of_fmap_2 fst) in Hin.
Qed.

Section candidates.
Context `{PyLib}.

Lemma numeric_cols_fold_eq (l : DataFrame) (acc : list pystr) :
  NoDup l.*1 →
  (∀ c col, (c, col) ∈ l → if is_number col then c ∈ acc else c ∉ acc) →
  foldl (λ numeric_cols ccol,
           if bool_decide (ccol.1 ∈ numeric_cols) then numeric_cols
           else if to_numeric_probe ccol.2 then numeric_cols ++ [ccol.1]
           else numeric_cols) acc l
  = acc ++ (filter (λ ccol, is_number ccol.2 = false
                            ∧ to_numeric_probe ccol.2 = true) l).*1.
Proof.
  revert acc. induction l as [|[c col] l IH]; intros acc Hnd Hacc; simpl.
  { by rewrite app_nil_r. }
  apply NoDup_cons in Hnd as [Hc Hnd]. rewrite filter_cons. simpl.
  pose proof (Hacc c col ltac:(left)) as Hccol.
  assert (∀ acc', (∀ c', c' ∈ acc' → c' ∈ acc ∨ c' = c) → acc ⊆ acc' →
    ∀ c' col', (c', col') ∈ l → if is_number col' then c' ∈ acc' else c' ∉ acc')
    as Htail.
  { intros acc' Hacc' Hsub c' col' Hin.
    pose proof (Hacc c' col' ltac:(by right)) as Hc'.
    destruct (is_number col'); [by apply Hsub|]. intros [?| ->]%Hacc'; [done|].
    apply Hc. by apply (list_elem_of_fmap_2 fst) in Hin. }
  destruct (is_number col) eqn:Hnum.
  - rewrite bool_decide_eq_true_2 by done.
    rewrite decide_False by (by intros [? _]). apply IH; [done|].
    apply Htail; [by left|done].
  - rewrite bool_decide_eq_false_2 by done.
    destruct (to_numeric_probe col) eqn:Hprobe.
    + rewrite decide_True by done. rewrite IH; [by rewrite <-app_assoc|done|].
      apply Htail; [|by apply list_subseteq_app_l].
      intros c' [?|?%list_elem_of_singleton]%elem_of_app; auto.
    + rewrite decide_False by (by intros [_ ?]). apply IH; [done|].
      apply Htail; [by left|done].
Qed.

(** X9. On a table with distinct headers the metric candidates are the
    columns of dtype int64 or float64 in the order of the table, followed by
    the other columns that the probe accepts, in the order of the table; no
    header occurs twice, and each is a header of the table. *)
Theorem numeric_cols_order (df_raw : DataFrame) :
  NoDup (dict_keys df_raw) →
  numeric_cols df_raw
  = (filter (λ ccol, is_number ccol.2 = true) df_raw).*1
    ++ (filter (λ ccol, is_number ccol.2 = false
                        ∧ to_numeric_probe ccol.2 = true) df_raw).*1
  ∧ NoDup (numeric_cols df_raw)
  ∧ numeric_cols df_raw ⊆ dict_keys df_raw.
Proof.
  intros Hnd.
  assert (numeric_cols df_raw
    = (filter (λ ccol, is_number ccol.2 = true) df_raw).*1
      ++ (filter (λ ccol, is_number ccol.2 = false
                          ∧ to_numeric_probe ccol.2 = true) df_raw).*1) as Heq.
  { unfold numeric_cols. apply numeric_cols_fold_eq; [done|].
    intros c col Hin. destruct (is_number col) eqn:Hnum.
    - apply list_elem_of_fmap. exists (c, col). split; [done|].
      by apply list_elem_of_filter.
    - intros ([c' col'] & -> & [Hnum' Hin']%list_elem_of_filter)%list_elem_of_fmap.
      pose proof (dict_get_NoDup _ _ _ Hnd Hin') as Hget'.
      pose proof (dict_get_NoDup _ _ _ Hnd Hin) as Hget. simpl in *. congruence. }
  split_and!; [done| |].
  - rewrite Heq. apply NoDup_app. split_and!; [by apply NoDup_filter_keys| |by apply NoDup_filter_keys].
    intros c ([c1 col1] & -> & [Hnum1 Hin1]%list_elem_of_filter)%list_elem_of_fmap
      ([c2 col2] & Hc & [[Hnum2 _] Hin2]%list_elem_of_filter)%list_elem_of_fmap.
    simpl in *. subst c2.
    pose proof (dict_get_NoDup _ _ _ Hnd Hin1) as Hget1.
    pose proof (dict_get_NoDup _ _ _ Hnd Hin2) as Hget2. congruence.
  - intros c (col & Hin & _)%numeric_cols_spec.
    by apply (list_elem_of_fmap_2 fst) in Hin.
Qed.


Lemma detect_state_col_header_of df_raw c :
  detect_state_col df_raw = Some c → c ∈ dict_keys df_raw.
Proof.
  unfold detect_state_col, state_candidates, object_cols.
  destruct (filter _ (dict_keys df_raw)) as [|c' cs] eqn:Hc.
  - destruct (filter _ df_raw) as [|[c' col] l] eqn:Ho; [done|].
    intros [= <-].
    assert ((c', col) ∈ filter (λ ccol, is_object ccol.2 = true) df_raw) as Hin
      by (rewrite Ho; left).
    apply list_elem_of_filter in Hin as [_ Hin].
    by apply (list_elem_of_fmap_2 fst) in Hin.
  - intros [= <-].
    assert (c' ∈ c' :: cs) as Hin by left. rewrite <-Hc in Hin.
    by apply list_elem_of_filter in Hin as [_ Hin].
Qed.

Lemma aggregate_raises df_raw state_col metric_col e :
  state_col ∈ dict_keys df_raw → metric_col ∈ dict_keys df_raw →
  aggregate df_raw state_col metric_col = Raise e →
  e = TypeError ∨ (e = KeyError ∧ metric_col = state_norm_key).
Proof.
  intros Hstate Hin. unfold aggregate, df_get.
  apply dict_get_is_Some in Hstate as [names ->]. simpl.
  case_decide as Hnorm; [intros [= <-]; by right|].
  destruct (dict_get metric_col _) as [metric|] eqn:Hmetric; simpl.
  - intros (k & _ & Hk)%mapM_Raise. left.
    destruct (group_sum _) as [v|e'] eqn:Hsum; simpl in Hk; [done|].
    injection Hk as <-. by apply group_sum_raises in Hsum.
  - exfalso. apply dict_get_None in Hmetric. apply Hmetric.
    by do 2 apply dict_keys_set_subseteq.
Qed.

Lemma aggregate_state_norm df_raw state_col :
  state_col ∈ dict_keys df_raw →
  aggregate df_raw state_col state_norm_key = Raise KeyError.
Proof.
  intros [names Hnames]%dict_get_is_Some. unfold aggregate, df_get.
  rewrite Hnames. cbn [mbind result_bind]. by rewrite decide_True.
Qed.

(** X10. When the detection does not stop the run, it shows no failure, the
    state column and every metric candidate are headers of the table, and
    there is at least one candidate.  The aggregation over a candidate
    raises [KeyError] exactly when the candidate is the column
    [__state_norm] of the upload, which the canonical names overwrite: its
    sums are renamed on line 164, and line 165 misses the column. *)
Theorem select_columns_headers (df_raw : DataFrame) fs state_col cols :
  select_columns df_raw = (fs, Some (state_col, cols)) →
  fs = [] ∧ cols ≠ []
  ∧ state_col ∈ dict_keys df_raw
  ∧ cols ⊆ dict_keys df_raw
  ∧ ∀ metric_col,
      metric_col ∈ cols →
      aggregate df_raw state_col metric_col = Raise KeyError
      ↔ metric_col = state_norm_key.
Proof.
  unfold select_columns.
  destruct (detect_state_col df_raw) as [c|] eqn:Hstate; [|done].
  destruct (numeric_cols df_raw) as [|c0 cs] eqn:Hcols; [done|].
  intros [= <- <- <-]. apply detect_state_col_header_of in Hstate.
  assert (c0 :: cs ⊆ dict_keys df_raw) as Hsub.
  { intros c' Hc'. rewrite <-Hcols in Hc'.
    apply numeric_cols_spec in Hc' as (col & Hin & _).
    by apply (list_elem_of_fmap_2 fst) in Hin. }
  split_and!; [done..|].
  intros metric_col Hin%Hsub. split.
  - intros Hraise.
    by destruct (aggregate_raises _ _ _ _ Hstate Hin Hraise) as [?|[_ ?]].
  - intros ->. by apply aggregate_state_norm.
Qed.

End candidates.

Lemma numeric_cols_order_witness :
  numeric_cols coded_table = [py "Cases"; py "Rate"; py "Code"; py "Open"].
Proof.
  destruct (numeric_cols_order coded_table) as [-> _].
  - apply (bool_decide_unpack _). by vm_compute.
  - by vm_compute.
Defined.

Lemma select_columns_headers_witness :
  detect_state_col renamed_table = Some (py "State")
  ∧ numeric_cols renamed_table = [py "Cases"; state_norm_key]
  ∧ aggregate renamed_table (py "State") state_norm_key = Raise KeyError
  ∧ aggregate renamed_table (py "State") (py "Cases") ≠ Raise KeyError.
Proof.
  destruct (select_columns_headers renamed_table [] (py "State")
              [py "Cases"; state_norm_key])
    as (_ & _ & _ & _ & Hraise); [by vm_compute|].
  split_and!; [by vm_compute..| |].
  - apply Hraise; [by right; left|done].
  - intros Hkey. apply Hraise in Hkey; [done|by left].
Defined.

(** ** Totals *)

Lemma sum_Z_fmap_add {A} (f g : A → Z) l :
  sum_Z ((λ k, f k + g k)%Z <$> l) = (sum_Z (f <$> l) + sum_Z (g <$> l))%Z.
Proof. induction l as [|k l IH]; [done|]. rewrite !fmap_cons. simpl. rewrite IH. lia. Qed.

Lemma sum_Z_fmap_0 {A} (l : list A) : sum_Z ((λ _, 0%Z) <$> l) = 0%Z.
Proof. induction l as [|k l IH]; [done|]. rewrite fmap_cons. simpl. by rewrite IH. Qed.

Lemma sum_Z_indicator (n : pystr) (x : Z) keys :
  NoDup keys → n ∈ keys →
  sum_Z ((λ k, if bool_decide (n = k) then x else 0%Z) <$> keys) = x.
Proof.
  induction 1 as [|k keys Hk Hnd IH]; [by intros ?%elem_of_nil|].
  rewrite fmap_cons. simpl. case_bool_decide as Hnk.
  - intros _. subst k.
    rewrite (list_fmap_ext _ (λ _, 0%Z) keys), sum_Z_fmap_0; [lia|].
    intros i k Hin%list_elem_of_lookup_2. rewrite bool_decide_eq_false_2; [done|].
    by intros ->.
  - intros [?|Hin]%elem_of_cons; [done|]. by rewrite IH.
Qed.

Lemma group_sums_total keys (norms : list pystr) (xs : list Z) :
  NoDup keys → norms ⊆ keys → length norms = length xs →
  sum_Z ((λ k, sum_Z (rows_where ((λ n, bool_decide (n = k)) <$> norms) xs)) <$> keys)
  = sum_Z xs.
Proof.
  intros Hnd. revert xs. induction norms as [|n norms IH]; intros [|x xs] Hsub Hlen;
    simplify_eq/=.
  - apply sum_Z_fmap_0.
  - rewrite (list_fmap_ext _
      (λ k, (if bool_decide (n = k) then x else 0)
            + sum_Z (rows_where ((λ n, bool_decide (n = k)) <$> norms) xs))%Z keys);
      [|by intros i k _; case_bool_decide].
    rewrite sum_Z_fmap_add, sum_Z_indicator, IH; [done| |done|done|].
    + intros k Hk. apply Hsub. by right.
    + apply Hsub. by left.
Qed.

Lemma wrap_int64_id z : int64 z → wrap_int64 z = z.
Proof. unfold int64, wrap_int64. intros Hz. rewrite Z.mod_small; lia. Qed.

Lemma wrap_int64_add z w : wrap_int64 (z + wrap_int64 w) = wrap_int64 (z + w).
Proof.
  unfold wrap_int64. f_equal.
  replace (z + ((w + 2 ^ 63) `mod` 2 ^ 64 - 2 ^ 63) + 2 ^ 63)%Z
    with (z + (w + 2 ^ 63) `mod` 2 ^ 64)%Z by lia.
  rewrite Zplus_mod_idemp_r. f_equal. lia.
Qed.

Lemma sum_Z_wrap {A} (f : A → Z) l :
  wrap_int64 (sum_Z ((λ k, wrap_int64 (f k)) <$> l)) = wrap_int64 (sum_Z (f <$> l)).
Proof.
  induction l as [|k l IH]; [done|]. rewrite !fmap_cons. cbn [sum_Z foldr].
  fold (sum_Z ((λ k, wrap_int64 (f k)) <$> l)). fold (sum_Z (f <$> l)).
  rewrite (Z.add_comm (wrap_int64 (f k))), wrap_int64_add.
  rewrite (Z.add_comm _ (f k)), <-wrap_int64_add, IH, wrap_int64_add. done.
Qed.

Lemma sum_Z_abs_nonneg xs : (0 ≤ sum_Z (Z.abs <$> xs))%Z.
Proof.
  induction xs as [|x xs IH]; [done|]. rewrite fmap_cons. cbn [sum_Z foldr].
  fold (sum_Z (Z.abs <$> xs)). lia.
Qed.

Lemma group_total_abs norms xs n :
  (Z.abs (group_total norms xs n) ≤ sum_Z (Z.abs <$> xs))%Z.
Proof.
  unfold group_total. revert xs.
  induction norms as [|m norms IH]; intros xs.
  { pose proof (sum_Z_abs_nonneg xs). by destruct xs. }
  destruct xs as [|x xs]; [done|]. specialize (IH xs).
  rewrite !fmap_cons. cbn [rows_where sum_Z foldr].
  fold (sum_Z (Z.abs <$> xs)).
  destruct (bool_decide (m = n)); cbn [sum_Z foldr];
    fold (sum_Z (rows_where ((λ m0, bool_decide (m0 = n)) <$> norms) xs)); lia.
Qed.

Lemma sorted_NoDup l : NoDup l → NoDup (sorted l).
Proof. intros. unfold sorted. by rewrite merge_sort_Permutation. Qed.

Section totals.
Context `{PyLib}.

(** X11. Aggregation loses no row.  Over a metric column of integers, as
    long as the state column, the sums of the groups add up in int64 to the
    int64 sum of the column; and they add up to the sum of the column itself
    when the absolute values of the column stay below 2^63 in total, so that
    no sum wraps around. *)
Theorem aggregate_preserves_total df_raw state_col metric_col names (xs : list Z) :
  df_get state_col df_raw = Ok names →
  df_get metric_col df_raw = Ok (IntCol xs) →
  metric_col ≠ state_raw_key → metric_col ≠ state_norm_key →
  length (cells names) = length xs →
  ∃ df_agg sums,
    aggregate df_raw state_col metric_col = Ok df_agg
    ∧ df_agg.*2 = SInt <$> sums
    ∧ wrap_int64 (sum_Z sums) = wrap_int64 (sum_Z xs)
    ∧ ((sum_Z (Z.abs <$> xs) < 2 ^ 63)%Z → sum_Z sums = sum_Z xs).
Proof.
  intros Hnames Hmetric Hraw Hnorm Hlen. rewrite (aggregate_eq _ _ _ names) by done.
  unfold df_get in *. rewrite !dict_get_set_ne by done.
  destruct (dict_get metric_col df_raw); simplify_eq/=.
  set (norms := canonical_names names).
  set (keys := sorted (remove_dups norms)).
  assert (sum_Z (group_total norms xs <$> keys) = sum_Z xs) as Htotal.
  { apply group_sums_total.
    + apply sorted_NoDup, NoDup_remove_dups.
    + intros n Hn. by apply elem_of_sorted, elem_of_remove_dups.
    + unfold norms, canonical_names, state_raw. by rewrite !length_fmap. }
  exists ((λ k, (k, SInt (wrap_int64 (group_total norms xs k)))) <$> keys),
    ((λ k, wrap_int64 (group_total norms xs k)) <$> keys). split_and!.
  - unfold groupby_sum. fold norms keys. by apply mapM_total, Forall_forall.
  - by rewrite <-!list_fmap_compose.
  - by rewrite sum_Z_wrap, Htotal.
  - intros Hsmall. rewrite <-Htotal. f_equal. apply list_fmap_ext. intros _ k _.
    apply wrap_int64_id. pose proof (group_total_abs norms xs k). unfold int64. lia.
Qed.

End totals.

Lemma aggregate_preserves_total_witness :
  ∃ df_agg sums,
    aggregate example_records (py "State") (py "Cases") = Ok df_agg
    ∧ df_agg.*2 = SInt <$> sums ∧ sum_Z sums = 18%Z.
Proof.
  destruct (aggregate_preserves_total example_records (py "State") (py "Cases")
              (ObjectCol (SStr <$> [py "Odisha"; py "Orissa"; py "Kerala"]))
              [10; 5; 3]%Z) as (df_agg & sums & Hagg & Hsums & _ & Hexact);
    [done..|].
  exists df_agg, sums. split_and!; [done..|]. by rewrite Hexact.
Defined.

(** ** Values that are no numbers *)

Lemma mapM_is_Ok {A B} (f : A → result B) l :
  (∃ k, mapM f l = Ok k) ↔ Forall (λ x, ∃ y, f x = Ok y) l.
Proof.
  split.
  - intros [k Hk%mapM_Ok]. induction Hk; constructor; eauto.
  - intros Hl. destruct (mapM f l) as [k|e] eqn:Hm; [by eexists|].
    apply mapM_Raise in Hm as (x & Hx & Hfx). rewrite Forall_forall in Hl.
    destruct (Hl x Hx) as [y Hy]. congruence.
Qed.

Section matched.
Context `{PyLib}.

(** X12. Reconciliation converts the values of the matched names only: it
    returns exactly when [float] accepts the value of every canonical name
    that a region has; a value under a name that no region has is never
    converted. *)
Theorem reconcile_converts_matched (feats : list feature) (norms : list pystr)
    (df_agg : list (pystr * scalar)) :
  Forall2 (λ feat n, dict_get state_norm_key feat = Some (JScalar (SStr n)))
          feats norms →
  (∃ out, reconcile feats df_agg = Ok out)
  ↔ ∀ n v, n ∈ norms → dict_zip df_agg !! n = Some v → ∃ x, py_float v = Ok x.
Proof.
  intros Hnorms. unfold reconcile, geo_norm_set.
  rewrite (mapM_norm_of _ norms) by done. simpl.
  assert ((∃ feats', mapM (set_metric (dict_zip df_agg)) feats = Ok feats')
    ↔ ∀ n v, n ∈ norms → dict_zip df_agg !! n = Some v → ∃ x, py_float v = Ok x)
    as <-.
  { rewrite mapM_is_Ok. induction Hnorms as [|feat n feats norms Hf _ IH].
    - split; [by intros _ ?? ?%elem_of_nil|constructor].
    - rewrite Forall_cons, IH. clear IH.
      assert ((∃ y, set_metric (dict_zip df_agg) feat = Ok y)
        ↔ ∀ v, dict_zip df_agg !! n = Some v → ∃ x, py_float v = Ok x) as ->.
      { unfold set_metric, norm_of. rewrite Hf. simpl.
        destruct (dict_zip df_agg !! n) as [v|]; simpl.
        - destruct (py_float v) as [x|e] eqn:Hx; simpl.
          + split; [intros _ ? [= <-]; by exists x|by eexists].
          + split; [by intros [??]|]. intros Hv.
            destruct (Hv v eq_refl) as [??]. congruence.
        - split; [done|]. intros _. by eexists. }
      setoid_rewrite elem_of_cons. naive_solver. }
  destruct (mapM _ feats) as [feats'|e]; simpl; split; intros [? ?]; by eauto.
Qed.

End matched.

Lemma reconcile_converts_matched_witness :
  ∃ out, reconcile [[(state_norm_key, JScalar (SStr (py "kerala")))]]
           [(py "goa", SStr (py "x")); (py "kerala", SInt 20)] = Ok out.
Proof.
  apply (reconcile_converts_matched _ [py "kerala"]).
  - by repeat constructor.
  - intros n v ->%list_elem_of_singleton. vm_compute. intros [= <-]. by eexists.
Defined.

(** ** The scale of the elevation *)

Lemma dict_set_fresh {V} k (v : V) d : k ∉ dict_keys d → dict_set k v d = d ++ [(k, v)].
Proof.
  unfold dict_keys. induction d as [|[k' v'] d IH]; [done|].
  rewrite fmap_cons, not_elem_of_cons. intros [Hne Hk]. simpl.
  rewrite decide_False by done. by rewrite IH.
Qed.

Lemma dict_of_pairs_NoDup {V} (l : list (pystr * V)) :
  NoDup l.*1 → dict_of_pairs l = l.
Proof.
  unfold dict_of_pairs.
  assert (∀ d, NoDup (d ++ l).*1 → foldl (λ d kv, dict_set kv.1 kv.2 d) d l = d ++ l)
    as Hfold; [|by apply (Hfold [])].
  induction l as [|[k v] l IH]; intros d Hnd; simpl; [by rewrite app_nil_r|].
  rewrite dict_set_fresh.
  - rewrite IH; by rewrite <-app_assoc.
  - rewrite fmap_app, fmap_cons in Hnd.
    apply NoDup_app in Hnd as (_ & Hd & _). intros Hk. apply (Hd _ Hk). by left.
Qed.

Lemma dict_set_values {V} (P : V → Prop) k v (d : dict V) :
  P v → Forall P d.*2 → Forall P (dict_set k v d).*2.
Proof.
  intros Hv. induction d as [|[k' v'] d IH]; [by repeat constructor|].
  rewrite fmap_cons, Forall_cons. intros [Hv' Hd]. cbn [dict_set].
  case_decide; rewrite fmap_cons; constructor; auto.
Qed.

Lemma dict_of_pairs_values {V} (P : V → Prop) (l : list (pystr * V)) :
  Forall P l.*2 → Forall P (dict_of_pairs l).*2.
Proof.
  unfold dict_of_pairs.
  assert (∀ d, Forall P d.*2 → Forall P l.*2 →
    Forall P (foldl (λ d kv, dict_set kv.1 kv.2 d) d l).*2) as Hfold;
    [|by apply (Hfold [])].
  induction l as [|[k v] l IH]; intros d Hd Hl; simpl; [done|].
  rewrite fmap_cons in Hl. apply Forall_cons in Hl as [Hv Hl].
  apply IH; [by apply dict_set_values|done].
Qed.

(** The two readings of [dict(zip(keys, values))] agree on every key. *)
Lemma dict_of_pairs_lookup {V} (l : list (pystr * V)) k :
  dict_get k (dict_of_pairs l) = dict_zip l !! k.
Proof.
  unfold dict_of_pairs, dict_zip.
  assert (∀ (d : dict V) (m : gmap pystr V),
    (∀ k, dict_get k d = m !! k) →
    dict_get k (foldl (λ d kv, dict_set kv.1 kv.2 d) d l)
    = foldl (λ m kv, <[kv.1 := kv.2]> m) m l !! k) as Hfold;
    [|by apply Hfold].
  induction l as [|[k' v] l IH]; intros d m Hdm; simpl; [done|].
  apply IH. intros k0. destruct (decide (k' = k0)) as [->|Hne].
  - by rewrite dict_get_set_eq, lookup_insert_eq.
  - by rewrite dict_get_set_ne, lookup_insert_ne.
Qed.

Lemma py_gt_number a b x y :
  as_float a = Some x → as_float b = Some y → py_gt a b = Ok (flt y x).
Proof. destruct a, b; simpl; intros; by simplify_eq. Qed.

Lemma py_le_number a b x y :
  as_float a = Some x → as_float b = Some y → py_le a b = Ok (fle x y).
Proof. destruct a, b; simpl; intros; by simplify_eq. Qed.

Lemma py_max_number xs :
  xs ≠ [] → Forall (λ v, is_Some (as_float v)) xs →
  ∃ m, py_max xs = Ok m ∧ is_Some (as_float m).
Proof.
  destruct xs as [|x xs]; [done|]. intros _ [Hx Hxs]%Forall_cons. simpl.
  revert x Hx. induction Hxs as [|item xs [y Hy] _ IH]; intros m [x Hx]; simpl.
  - by exists m.
  - rewrite (py_gt_number _ _ _ _ Hy Hx). simpl.
    destruct (flt x y); apply IH; by eexists.
Qed.

Lemma flt_fle x y : flt x y = true → fle x y = true.
Proof.
  destruct x as [|a|p], y as [|b|q]; simpl; try done.
  - by destruct a, b.
  - intros Hlt%bool_decide_eq_true. by apply bool_decide_eq_true, Qclt_le_weak.
Qed.

Lemma fle_refl_Z z : fle (float_of_Z z) (float_of_Z z) = true.
Proof. by apply bool_decide_eq_true. Qed.

Lemma elev_scale_base_number (df_agg : list (pystr * scalar)) :
  Forall (λ kv, is_Some (as_float kv.2)) df_agg →
  ∃ x, elev_scale_base df_agg = Ok x ∧ fle (float_of_Z 1) x = true.
Proof.
  intros Hnum.
  assert (∃ m x, max_metric df_agg = Ok m ∧ as_float m = Some x) as (m & x & Hm & Hx).
  { unfold max_metric.
    pose proof (dict_of_pairs_values (λ v, is_Some (as_float v)) df_agg) as Hvalues.
    destruct ((dict_of_pairs df_agg).*2) as [|v vs] eqn:Hv.
    - by exists (SInt 0), (float_of_Z 0).
    - destruct (py_max_number (v :: vs)) as (m & Hm & [x Hx]); [done| |by eauto].
      apply Hvalues. by apply Forall_fmap. }
  unfold elev_scale_base. rewrite Hm. cbn [mbind result_bind].
  rewrite (py_le_number _ _ x (float_of_Z 0)) by done. cbn [mbind result_bind].
  destruct (fle x (float_of_Z 0)); [by eauto using fle_refl_Z|]. rewrite Hx.
  eexists. split; [done|]. cbn zeta.
  destruct (flt (float_of_Z 1) (fdiv x (float_of_Z 25000))) eqn:Hlt;
    [by apply flt_fle|apply fle_refl_Z].
Qed.

(** X13. Over an aggregate of numbers (NaN and the infinities among them)
    the scale of the elevation is computed without an exception and is at
    least 1.0: it is never zero, negative or NaN. *)
Theorem elev_scale_base_at_least_1 (df_agg : list (pystr * scalar)) :
  Forall (λ kv, is_Some (as_float kv.2)) df_agg →
  ∃ x, elev_scale_base df_agg = Ok x ∧ fle (float_of_Z 1) x = true.
Proof. apply elev_scale_base_number. Qed.

Lemma elev_scale_base_at_least_1_witness :
  ∃ x, elev_scale_base [(py "goa", SFloat FNaN); (py "kerala", SInt 3)] = Ok x
     ∧ fle (float_of_Z 1) x = true.
Proof.
  apply elev_scale_base_at_least_1. repeat constructor; by eexists.
Defined.

Lemma py_max_ints z zs :
  py_max (SInt <$> z :: zs) = Ok (SInt (foldl Z.max z zs)).
Proof.
  rewrite fmap_cons. cbn [py_max]. revert z.
  induction zs as [|a zs IH]; intros z; [done|].
  rewrite fmap_cons. cbn [foldl mbind result_bind].
  rewrite (py_gt_number _ _ (float_of_Z a) (float_of_Z z)) by done.
  cbn [mbind result_bind flt float_of_Z].
  case_bool_decide as Hlt; rewrite <-Z2Qc_inj_lt in Hlt; rewrite IH; do 3 f_equal; lia.
Qed.

Lemma greatest_nonneg zs : (0 ≤ greatest zs)%Z.
Proof. unfold greatest. induction zs; cbn [foldr]; lia. Qed.

Lemma greatest_foldl z zs : greatest (z :: zs) = Z.max 0 (foldl Z.max z zs).
Proof.
  unfold greatest.
  assert (∀ a, Z.max 0 (foldl Z.max a zs) = Z.max 0 (Z.max a (foldr Z.max 0 zs)))%Z
    as Hfold.
  { induction zs as [|b zs IH]; intros a; cbn [foldl foldr]; [lia|]. rewrite IH. lia. }
  rewrite Hfold. cbn [foldr]. pose proof (greatest_nonneg zs). unfold greatest in *. lia.
Qed.

Lemma Qc_one_lt_div (m q : Z) :
  (0 < q)%Z → (Qc_of_Z 1 < Qc_of_Z m / Qc_of_Z q)%Qc ↔ (q < m)%Z.
Proof.
  intros Hq. assert (0 < Qc_of_Z q)%Qc as Hq'.
  { rewrite <-Z2Qc_inj_0. by apply (proj1 (Z2Qc_inj_lt _ _)). }
  rewrite (Qcmult_lt_mono_pos_r _ _ (Qc_of_Z q)) by done.
  unfold Qcdiv. rewrite Z2Qc_inj_1, Qcmult_1_l, <-Qcmult_assoc, Qcmult_inv_l, Qcmult_1_r
    by (by apply not_eq_sym, Qclt_not_eq).
  symmetry. apply Z2Qc_inj_lt.
Qed.

(** X14. Over an aggregate of integers under distinct names the scale is
    1.0 when no value is above 25000 (and when there is no value), and the
    greatest value divided by 25000 otherwise. *)
Theorem elev_scale_base_integers (df_agg : list (pystr * scalar)) (zs : list Z) :
  NoDup df_agg.*1 → df_agg.*2 = SInt <$> zs →
  ((greatest zs ≤ 25000)%Z → elev_scale_base df_agg = Ok (float_of_Z 1))
  ∧ ((25000 < greatest zs)%Z →
     elev_scale_base df_agg
     = Ok (fdiv (float_of_Z (greatest zs)) (float_of_Z 25000))).
Proof.
  intros Hnd Hzs. unfold elev_scale_base, max_metric.
  rewrite dict_of_pairs_NoDup, Hzs by done.
  destruct zs as [|z zs]; [by split|].
  rewrite fmap_cons. cbv beta iota. rewrite <-fmap_cons, py_max_ints, greatest_foldl.
  set (m := foldl Z.max z zs). clearbody m.
  assert (float_of_Z 25000 = FFin (Qc_of_Z 25000)) as H25 by done.
  cbn [mbind result_bind fmap list_fmap]. simpl.
  case_bool_decide as Hle.
  - rewrite <-Z2Qc_inj_le in Hle. split; [done|lia].
  - rewrite <-Z2Qc_inj_le in Hle. rewrite Z.max_r by lia.
    case_bool_decide as Hlt; rewrite Qc_one_lt_div in Hlt by done; split; (done || lia).
Qed.

Lemma elev_scale_base_integers_witness :
  elev_scale_base [(py "goa", SInt 50000); (py "kerala", SInt 100)]
  = Ok (fdiv (float_of_Z 50000) (float_of_Z 25000)).
Proof.
  apply (elev_scale_base_integers _ [50000; 100]%Z); [|done..].
  apply (bool_decide_unpack _). by vm_compute.
Defined.

(** ** The features of a GeoJSON file *)

Section geojson.
Context `{PyLib}.

Lemma annotate_properties_Ok key (features : list (option feature)) regions :
  mapM (λ properties,
          match properties with
          | Some props => Ok (annotate_feature key props)
          | None => Raise AttributeError
          end) features = Ok regions →
  ∃ feats, features = Some <$> feats ∧ regions = annotate_feature key <$> feats.
Proof.
  intros Hm%mapM_Ok.
  induction Hm as [|[props|] region features regions Hx _ (feats & -> & ->)];
    [by exists []| |done].
  injection Hx as <-. by exists (props :: feats).
Qed.

Lemma annotate_geojson_features (feats : list feature) :
  annotate_geojson (Some <$> feats) = annotate_features feats.
Proof.
  destruct feats as [|sample feats]; [done|].
  rewrite fmap_cons. cbn [annotate_geojson annotate_features].
  destruct (detect_state_key_from_props sample) as [key|e]; [|done].
  cbn [mbind result_bind]. apply mapM_Ok. rewrite <-fmap_cons.
  induction (sample :: feats) as [|feat l IH]; [constructor|].
  rewrite !fmap_cons. by constructor.
Qed.

Lemma annotate_geojson_Ok (features : list (option feature)) regions :
  annotate_geojson features = Ok regions →
  ∃ feats, features = Some <$> feats ∧ annotate_features feats = Ok regions.
Proof.
  intros Hrun.
  assert (∃ feats, features = Some <$> feats) as [feats ->].
  { destruct features as [|[sample|] features]; [done| |done].
    cbn [annotate_geojson] in Hrun.
    destruct (detect_state_key_from_props sample) as [key|e]; [|done].
    cbn [mbind result_bind] in Hrun.
    apply annotate_properties_Ok in Hrun as (feats & ? & _). by exists feats. }
  exists feats. by rewrite <-annotate_geojson_features.
Qed.

(** X8. The annotation of lines 100-107 on the features of a GeoJSON file,
    whose properties may be [null].  It raises [IndexError] exactly when
    there is no feature, or the first feature has an empty object of
    properties; it raises [AttributeError] exactly when the properties of a
    feature are [null], unless the first feature has an empty object; it
    raises nothing else.  When it returns, no feature has [null] properties
    and there are as many regions as features.  On features that all have
    properties it is [annotate_features]. *)
Theorem annotate_geojson_raises (features : list (option feature)) :
  (annotate_geojson features = Raise IndexError
   ↔ features = [] ∨ head features = Some (Some []))
  ∧ (annotate_geojson features = Raise AttributeError
     ↔ None ∈ features ∧ head features ≠ Some (Some []))
  ∧ (∀ e, annotate_geojson features = Raise e → e = IndexError ∨ e = AttributeError)
  ∧ (∀ regions, annotate_geojson features = Ok regions →
       length regions = length features ∧ None ∉ features)
  ∧ (∀ feats, features = Some <$> feats →
       annotate_geojson features = annotate_features feats).
Proof.
  assert (∀ feats, features = Some <$> feats →
    annotate_geojson features = annotate_features feats) as Hfeats.
  { intros feats ->. apply annotate_geojson_features. }
  assert (∀ regions, annotate_geojson features = Ok regions →
    length regions = length features ∧ None ∉ features) as Hok.
  { intros regions (feats & -> & Hregions)%annotate_geojson_Ok. split.
    - unfold annotate_features in Hregions. destruct feats as [|sample feats]; [done|].
      destruct (detect_state_key_from_props sample) as [a|]; [|done].
      cbn [mbind result_bind] in Hregions.
      assert (regions = annotate_feature a <$> sample :: feats) as ->
        by (by injection Hregions).
      by rewrite !length_fmap.
    - by intros (feat & ? & _)%list_elem_of_fmap. }
  split_and!; [| | |done|done].
  - destruct features as [|[sample|] features]; cbn [annotate_geojson].
    + split; [by left|done].
    + destruct (detect_state_key_from_props sample) as [key|e] eqn:Hkey.
      * cbn [mbind result_bind]. split.
        -- intros (x & _ & Hx)%mapM_Raise. by destruct x.
        -- intros [|[= ->]]; [done|]. done.
      * apply detect_state_key_raises in Hkey as [-> ->].
        split; [by right|done].
    + split; [done|by intros [|]].
  - destruct features as [|[sample|] features]; cbn [annotate_geojson].
    + split; [done|by intros [?%elem_of_nil _]].
    + destruct (detect_state_key_from_props sample) as [key|e] eqn:Hkey.
      * cbn [mbind result_bind]. split.
        -- intros (x & Hin & Hx)%mapM_Raise. destruct x; [done|].
           split; [done|]. intros [= ->]. done.
        -- intros [Hnone _].
           destruct (mapM _ (Some sample :: features)) as [regions|e] eqn:Hm.
           ++ apply annotate_properties_Ok in Hm as (feats & Heq & _).
              rewrite Heq in Hnone. by apply list_elem_of_fmap in Hnone as (? & ? & _).
           ++ apply mapM_Raise in Hm as (x & _ & Hx). destruct x; [done|].
              by injection Hx as <-.
      * apply detect_state_key_raises in Hkey as [-> ->].
        split; [done|by intros [_ []]].
    + split; [|done]. intros _. split; [left|done].
  - intros e. destruct features as [|[sample|] features]; cbn [annotate_geojson].
    + intros [= <-]. by left.
    + destruct (detect_state_key_from_props sample) as [key|e'] eqn:Hkey.
      * cbn [mbind result_bind]. intros (x & _ & Hx)%mapM_Raise.
        destruct x; [done|]. injection Hx as <-. by right.
      * apply detect_state_key_raises in Hkey as [-> ->]. intros [= <-]. by left.
    + intros [= <-]. by right.
Qed.

End geojson.

(** ** The whole run *)


Section run.
Context `{PyLib}.





End run.


(** ** Validation *)

Lemma bind_eq_nil {A B} (f : A → list B) (l : list A) :
  l ≫= f = [] ↔ Forall (λ x, f x = []) l.
Proof.
  induction l as [|x l IH]; [done|]. rewrite bind_cons, Forall_cons, <-IH.
  split; [by intros [??]%app_eq_nil|by intros [-> ->]].
Qed.

Lemma dict_set_set {V} k (v : V) d : dict_set k v (dict_set k v d) = dict_set k v d.
Proof.
  induction d as [|[k' v'] d IH]; simpl; [by rewrite decide_True|].
  destruct (decide (k' = k)) as [->|Hne]; simpl.
  - by rewrite decide_True.
  - rewrite decide_False by done. by rewrite IH.
Qed.

Section validation.
Context `{PyLib} `{PandasLib}.

Lemma dict_keys_coerced schema df : dict_keys (coerced schema df) = dict_keys df.
Proof.
  unfold coerced, dict_keys. destruct (schema_coerce schema); [|done].
  rewrite <-list_fmap_compose. apply list_fmap_ext. intros _ [c col] _. simpl.
  by destruct (dict_get c _).
Qed.

Lemma validate_Ok schema raw lazy df :
  validate schema raw lazy = Ok df ↔ schema_errors schema raw = [] ∧ df = coerced schema raw.
Proof.
  unfold validate. destruct (schema_errors schema raw) as [|err errs].
  - split; [by intros [= <-]|by intros [_ ->]].
  - split; [by destruct lazy|by intros [??]].
Qed.

Lemma column_errors_nil df c spec :
  column_errors df c spec = [] →
  ∃ col, dict_get c df = Some col ∧ dtype_matches (col_dtype spec) col = true.
Proof.
  unfold column_errors. destruct (dict_get c df) as [col|]; [|done].
  intros [Hdtype _]%app_eq_nil. exists col. split; [done|].
  by destruct (dtype_matches _ _).
Qed.

Lemma schema_errors_nil schema raw c spec :
  schema_errors schema raw = [] → (c, spec) ∈ schema_columns schema →
  column_errors (coerced schema raw) c spec = [].
Proof.
  unfold schema_errors. intros [_ Hcols]%app_eq_nil Hin.
  rewrite bind_eq_nil, Forall_forall in Hcols. apply (Hcols _ Hin).
Qed.

(** X16. A frame that [load_data] returns has the columns of the table
    read, in the same order; among them the four columns of the schema with
    their dtypes (object, text as object, int64, float64); a column that the
    schema does not name is returned as it was read. *)
Theorem load_data_columns (read_csv : pystr → result DataFrame) (path : pystr) df :
  load_data read_csv path = Ok df →
  ∃ raw, read_csv path = Ok raw
    ∧ dict_keys df = dict_keys raw
    ∧ (∃ vs, dict_get (py "Sl. No.") df = Some (ObjectCol vs))
    ∧ (∃ vs, dict_get (py "State/UT") df = Some (ObjectCol vs))
    ∧ (∃ xs, dict_get (py "2022") df = Some (IntCol xs))
    ∧ (∃ xs, dict_get (py "percentage") df = Some (FloatCol xs))
    ∧ (∀ c, c ∉ dict_keys (schema_columns SCHEMA) → dict_get c df = dict_get c raw).
Proof.
  unfold load_data. destruct (read_csv path) as [raw|]; [|done]. simpl.
  destruct (validate SCHEMA raw true) as [df'|] eqn:Hv; [|done]. simpl.
  intros [= ->]. apply validate_Ok in Hv as [Herrs ->].
  exists raw. split_and!; [done|apply dict_keys_coerced|..].
  - destruct (column_errors_nil (coerced SCHEMA raw) (py "Sl. No.")
      {| col_dtype := DObject; col_checks := []; col_nullable := true |})
      as ([] & ? & ?); [apply schema_errors_nil; [done|set_solver]|try done..].
    by eexists.
  - destruct (column_errors_nil (coerced SCHEMA raw) (py "State/UT")
      {| col_dtype := DStr; col_checks := []; col_nullable := false |})
      as ([] & ? & ?); [apply schema_errors_nil; [done|set_solver]|try done..].
    by eexists.
  - destruct (column_errors_nil (coerced SCHEMA raw) (py "2022")
      {| col_dtype := DInt; col_checks := [Ge 0]; col_nullable := false |})
      as ([] & ? & ?); [apply schema_errors_nil; [done|set_solver]|try done..].
    by eexists.
  - destruct (column_errors_nil (coerced SCHEMA raw) (py "percentage")
      {| col_dtype := DFloat; col_checks := []; col_nullable := true |})
      as ([] & ? & ?); [apply schema_errors_nil; [done|set_solver]|try done..].
    by eexists.
  - intros c Hc. rewrite (coerced_lookup SCHEMA) by done.
    assert (dict_get c (schema_columns SCHEMA) = None) as ->
      by (by apply dict_get_None).
    by destruct (dict_get c raw).
Qed.

End validation.

Lemma load_data_columns_witness :
  ∃ raw, files (py "crime.csv") = Ok raw
    ∧ dict_keys raw = [py "Sl. No."; py "State/UT"; py "2022"; py "percentage"].
Proof.
  destruct (load_data_columns files (py "crime.csv")
    [(py "Sl. No.", ObjectCol [SInt 1; SInt 2]);
     (py "State/UT", ObjectCol [SStr (py "Kerala"); SStr (py "Goa")]);
     (py "2022", IntCol [30; 70]%Z);
     (py "percentage", FloatCol [FNaN; FNaN])])
    as (raw & Hraw & Hkeys & _); [by vm_compute|].
  exists raw. split; [done|]. by rewrite <-Hkeys.
Defined.

Section revalidation.
Context `{PyLib} `{PandasLib}.

(** The cast of float64 to float64 changes nothing. *)
Hypothesis astype_float_float : ∀ xs, astype_float (FloatCol xs) = Some xs.

Lemma coerce_series_idemp t col col' :
  coerce_series t col = Some col' → coerce_series t col' = Some col'.
Proof.
  destruct t; simpl.
  - by intros [= <-].
  - intros [= <-]. simpl. do 2 f_equal. rewrite <-list_fmap_compose.
    apply list_fmap_ext. intros _ v _. simpl. destruct (isna v) eqn:Hv; [by rewrite Hv|done].
  - destruct (astype_int col) as [xs|]; [|done]. simpl. intros [= <-].
    by rewrite astype_int_int.
  - destruct (astype_float col) as [xs|]; [|done]. simpl. intros [= <-].
    by rewrite astype_float_float.
Qed.

Lemma coerced_idemp schema df : coerced schema (coerced schema df) = coerced schema df.
Proof.
  unfold coerced. destruct (schema_coerce schema); [|done].
  rewrite <-list_fmap_compose. apply list_fmap_ext. intros _ [c col] _. simpl.
  destruct (dict_get c (schema_columns schema)) as [spec|] eqn:Hspec; simpl;
    rewrite Hspec; [|done].
  f_equal. destruct (coerce_series (col_dtype spec) col) as [col'|] eqn:Hc; simpl.
  - by rewrite (coerce_series_idemp _ _ _ Hc).
  - by rewrite Hc.
Qed.

Lemma coercion_errors_coerced schema df :
  NoDup (dict_keys (schema_columns schema)) →
  coercion_errors schema df = [] → coercion_errors schema (coerced schema df) = [].
Proof.
  intros Hnd. unfold coercion_errors. destruct (schema_coerce schema) eqn:Hco; [|done].
  rewrite !bind_eq_nil, !Forall_forall. intros Hraw [c spec] Hin.
  specialize (Hraw _ Hin). simpl in Hraw.
  rewrite (coerced_lookup schema), (dict_get_NoDup _ _ _ Hnd Hin) by done.
  destruct (dict_get c df) as [col|]; simpl; [|done].
  destruct (coerce_series (col_dtype spec) col) as [col'|] eqn:Hc; [|done]. simpl.
  by rewrite (coerce_series_idemp _ _ _ Hc).
Qed.

Lemma validate_idemp schema raw lazy df :
  NoDup (dict_keys (schema_columns schema)) →
  validate schema raw lazy = Ok df → validate schema df lazy = Ok df.
Proof.
  intros Hnd [Herrs ->]%validate_Ok. apply validate_Ok.
  split; [|by rewrite coerced_idemp].
  unfold schema_errors in *. apply app_eq_nil in Herrs as [Hco Hcols].
  by rewrite coercion_errors_coerced, coerced_idemp.
Qed.

(** X17. Validation is idempotent on what [load_data] returns: the frame
    passes [SCHEMA.validate] again and comes back unchanged (for a library
    whose cast of float64 to float64 changes nothing). *)
Theorem load_data_revalidates (read_csv : pystr → result DataFrame) (path : pystr) df :
  load_data read_csv path = Ok df → validate SCHEMA df true = Ok df.
Proof.
  unfold load_data. destruct (read_csv path) as [raw|]; [|done]. simpl.
  destruct (validate SCHEMA raw true) as [df'|] eqn:Hv; [|done]. simpl.
  intros [= ->]. eapply validate_idemp; [|done].
  apply (bool_decide_unpack _). by vm_compute.
Qed.

End revalidation.

Lemma numpy_astype_float_float xs : astype_float (FloatCol xs) = Some xs.
Proof.
  simpl. apply mapM_Some, Forall2_fmap_l, Forall_Forall2_diag, Forall_forall.
  by intros x _.
Qed.

Lemma load_data_revalidates_witness :
  ∃ df, load_data files (py "crime.csv") = Ok df ∧ validate SCHEMA df true = Ok df.
Proof.
  eexists. split; [by vm_compute|].
  apply (load_data_revalidates numpy_astype_float_float files (py "crime.csv")).
  by vm_compute.
Defined.

(** ** Tables that are not returned *)

Section rejections.
Context `{PyLib} `{PandasLib}.

Lemma load_data_raises read_csv path raw err :
  read_csv path = Ok raw → err ∈ schema_errors SCHEMA raw →
  ∃ errs, load_data read_csv path = Raise (SchemaErrors errs) ∧ err ∈ errs.
Proof.
  intros Hread Hin. unfold load_data. rewrite Hread. simpl. unfold validate.
  destruct (schema_errors SCHEMA raw) as [|err' errs]; [by apply elem_of_nil in Hin|].
  by eexists.
Qed.

(** X24. A table that lacks a column of the schema is not returned:
    [load_data] raises the failures of the validation, the missing column
    among them.  (So a frame that [load_data] returns always has its column
    "percentage".) *)
Theorem load_data_rejects_missing_column
    (read_csv : pystr → result DataFrame) (path : pystr) raw c :
  read_csv path = Ok raw →
  c ∈ dict_keys (schema_columns SCHEMA) →
  c ∉ dict_keys raw →
  ∃ errs, load_data read_csv path = Raise (SchemaErrors errs)
        ∧ ColumnNotInDataframe c ∈ errs.
Proof.
  intros Hread Hc Hraw. apply (load_data_raises _ _ raw); [done|].
  unfold schema_errors. apply elem_of_app. right.
  apply list_elem_of_fmap in Hc as ([c' spec] & -> & Hin).
  apply list_elem_of_bind. exists (c', spec). split; [|done]. simpl in *.
  unfold column_errors.
  assert (dict_get c' (coerced SCHEMA raw) = None) as ->; [|left].
  apply dict_get_None. by rewrite dict_keys_coerced.
Qed.

(** X25. A table with a missing value in its column "State/UT" is not
    returned: the cast to text leaves the value missing, and the column is
    not nullable. *)
Theorem load_data_rejects_missing_state
    (read_csv : pystr → result DataFrame) (path : pystr) raw col :
  read_csv path = Ok raw →
  dict_get (py "State/UT") raw = Some col →
  has_na col = true →
  ∃ errs, load_data read_csv path = Raise (SchemaErrors errs)
        ∧ NotNullable (py "State/UT") ∈ errs.
Proof.
  intros Hread Hcol Hna. apply (load_data_raises _ _ raw); [done|].
  unfold schema_errors. apply elem_of_app. right. simpl.
  apply elem_of_app. right. apply elem_of_app. left.
  unfold column_errors. rewrite (coerced_lookup SCHEMA) by done. rewrite Hcol.
  simpl. apply elem_of_app. left.
  assert (has_na (ObjectCol ((λ v, if isna v then v else SStr (py_str v)) <$> cells col))
          = true) as ->; [|left].
  unfold has_na in *. apply existsb_exists in Hna as (v & Hv & Hisna).
  apply existsb_exists. exists v. split; [|done]. simpl.
  apply list_elem_of_In, list_elem_of_fmap. exists v.
  split; [by rewrite Hisna|by apply list_elem_of_In].
Qed.

End rejections.

Lemma load_data_rejects_missing_column_witness :
  ∃ errs, load_data files (py "bad.csv") = Raise (SchemaErrors errs)
        ∧ ColumnNotInDataframe (py "percentage") ∈ errs.
Proof.
  apply (load_data_rejects_missing_column files (py "bad.csv") bad_table); [done|..];
    apply (bool_decide_unpack _); by vm_compute.
Defined.

Lemma load_data_rejects_missing_state_witness :
  ∃ errs, load_data files (py "bad.csv") = Raise (SchemaErrors errs)
        ∧ NotNullable (py "State/UT") ∈ errs.
Proof.
  by apply (load_data_rejects_missing_state files (py "bad.csv") bad_table
              (ObjectCol [SStr (py "Kerala"); SNone])).
Defined.

(** ** The percentage column *)

Section percentages.
Context `{PandasLib}.

Lemma ensure_percentage_column_complete_eq (h : heap) df d year_col pct_col :
  h !! df = Some d → ¬ incomplete d pct_col →
  ensure_percentage_column df year_col pct_col h
  = (Ok (fresh (dom h)), <[fresh (dom h) := d]> h).
Proof.
  intros Hd Hc. unfold incomplete in Hc.
  destruct (dict_get pct_col d) as [col|] eqn:Hcol; [|done].
  unfold ensure_percentage_column, df_copy, getitem, setitem.
  unfold mbind, prog_bind, deref, alloc, store, lift, mret, prog_ret.
  rewrite Hd. rewrite !lookup_insert_eq.
  rewrite bool_decide_eq_false_2
    by (intros Hk; apply dict_get_None in Hk; congruence).
  rewrite !lookup_insert_eq. unfold df_get. rewrite Hcol.
  by destruct (has_na col).
Qed.

Lemma ensure_percentage_column_incomplete_eq (h : heap) df d year_col pct_col :
  h !! df = Some d → incomplete d pct_col →
  ensure_percentage_column df year_col pct_col h
  = match year ← df_get year_col d; percentage year with
    | Ok pct => (Ok (fresh (dom h)), <[fresh (dom h) := dict_set pct_col pct d]> h)
    | Raise e => (Raise e, <[fresh (dom h) := d]> h)
    end.
Proof.
  intros Hd Hc. unfold incomplete in Hc.
  unfold ensure_percentage_column, df_copy, getitem, setitem, percentage.
  unfold mbind, prog_bind, result_bind, deref, alloc, store, lift, mret, prog_ret.
  rewrite Hd. set (out := fresh (dom h)). rewrite !lookup_insert_eq.
  assert (∀ r : result series,
    match r with
    | Ok pct =>
        match <[out:=d]> h !! out with
        | Some d0 => (Ok out, <[out:=dict_set pct_col pct d0]> (<[out:=d]> h))
        | None => (Raise AttributeError, <[out:=d]> h)
        end
    | Raise e => (Raise e, <[out:=d]> h)
    end
    = match r with
      | Ok pct => (Ok out, <[out:=dict_set pct_col pct d]> h)
      | Raise e => (Raise e, <[out:=d]> h)
      end) as Hset.
  { intros [pct|e]; [|done]. by rewrite lookup_insert_eq, insert_insert_eq. }
  case_bool_decide as Hk; simpl; rewrite ?lookup_insert_eq; simpl.
  - destruct (df_get year_col d) as [year|e]; [|done].
    destruct (series_sum year) as [total|e]; [|done].
    destruct (series_truediv year total) as [ratio|e]; [|done].
    destruct (series_mul ratio _) as [pct|e]; [|done]. simpl.
    by rewrite ?lookup_insert_eq, insert_insert_eq.
  - unfold df_get at 1. destruct (dict_get pct_col d) as [col|] eqn:Hcol.
    2:{ by apply dict_get_None in Hcol. }
    rewrite Hc. simpl. rewrite ?lookup_insert_eq. simpl.
    destruct (df_get year_col d) as [year|e]; [|done].
    destruct (series_sum year) as [total|e]; [|done].
    destruct (series_truediv year total) as [ratio|e]; [|done].
    destruct (series_mul ratio _) as [pct|e]; [|done]. simpl.
    by rewrite ?lookup_insert_eq, insert_insert_eq.
Qed.

(** X18. A percentage column without a missing value is kept: the call
    returns a copy with the columns of the frame given, and does not read the
    year column (which may be absent). *)
Theorem ensure_percentage_column_complete (h : heap) df d year_col pct_col col :
  h !! df = Some d →
  dict_get pct_col d = Some col → has_na col = false →
  ∃ out h', ensure_percentage_column df year_col pct_col h = (Ok out, h')
    ∧ h' !! out = Some d.
Proof.
  intros Hd Hcol Hna. eexists _, _. split.
  - apply ensure_percentage_column_complete_eq; [done|].
    unfold incomplete. rewrite Hcol. congruence.
  - apply lookup_insert_eq.
Qed.

(** X19. When the percentage column is absent or has a missing value and
    the arithmetic returns, the frame returned holds the new percentages
    under [pct_col], every other column as before, and the columns in the
    order of the frame given, with [pct_col] added at the end when it is
    new. *)
Theorem ensure_percentage_column_fills (h : heap) df d year_col pct_col year pct :
  h !! df = Some d →
  incomplete d pct_col →
  df_get year_col d = Ok year →
  percentage year = Ok pct →
  ∃ out h' d',
    ensure_percentage_column df year_col pct_col h = (Ok out, h')
    ∧ h' !! out = Some d'
    ∧ dict_get pct_col d' = Some pct
    ∧ (∀ c, c ≠ pct_col → dict_get c d' = dict_get c d)
    ∧ dict_keys d'
      = if decide (pct_col ∈ dict_keys d) then dict_keys d
        else dict_keys d ++ [pct_col].
Proof.
  intros Hd Hinc Hyear Hpct. eexists _, _, (dict_set pct_col pct d). split_and!.
  - rewrite (ensure_percentage_column_incomplete_eq _ _ d) by done.
    rewrite Hyear. simpl. by rewrite Hpct.
  - apply lookup_insert_eq.
  - apply dict_get_set_eq.
  - intros c Hc. by apply dict_get_set_ne.
  - apply dict_keys_set.
Qed.

(** X20. On a frame without the year column the call raises [KeyError]
    exactly when the percentage column is absent or has a missing value. *)
Theorem ensure_percentage_column_missing_year (h : heap) df d year_col pct_col :
  h !! df = Some d →
  year_col ∉ dict_keys d →
  (ensure_percentage_column df year_col pct_col h).1 = Raise KeyError
  ↔ incomplete d pct_col.
Proof.
  intros Hd Hyear. apply dict_get_None in Hyear.
  destruct (decide (incomplete d pct_col)) as [Hinc|Hinc].
  - rewrite (ensure_percentage_column_incomplete_eq _ _ d) by done.
    unfold df_get. by rewrite Hyear.
  - rewrite (ensure_percentage_column_complete_eq _ _ d) by done. by split.
Qed.

(** X21. [ensure_percentage_column] is idempotent: called on the frame that
    it returned, with the same columns ([year_col] other than [pct_col]), it
    returns a frame with the same columns and values. *)
Theorem ensure_percentage_column_idempotent (h h1 : heap) df d year_col pct_col out1 :
  h !! df = Some d →
  year_col ≠ pct_col →
  ensure_percentage_column df year_col pct_col h = (Ok out1, h1) →
  ∃ out2 h2,
    ensure_percentage_column out1 year_col pct_col h1 = (Ok out2, h2)
    ∧ h2 !! out2 = h1 !! out1.
Proof.
  intros Hd Hne Hrun.
  assert (∀ d1, h1 !! out1 = Some d1 → ¬ incomplete d1 pct_col →
    ∃ out2 h2, ensure_percentage_column out1 year_col pct_col h1 = (Ok out2, h2)
      ∧ h2 !! out2 = h1 !! out1) as Hkeep.
  { intros d1 Hd1 Hc. eexists _, _. split.
    - by apply ensure_percentage_column_complete_eq.
    - by rewrite lookup_insert_eq. }
  destruct (decide (incomplete d pct_col)) as [Hinc|Hinc].
  - rewrite (ensure_percentage_column_incomplete_eq _ _ d) in Hrun by done.
    destruct (df_get year_col d) as [year|] eqn:Hyear; [|done]. simpl in Hrun.
    destruct (percentage year) as [pct|] eqn:Hpct; [|done].
    injection Hrun as <- <-.
    assert (<[fresh (dom h):=dict_set pct_col pct d]> h !! fresh (dom h)
            = Some (dict_set pct_col pct d)) as Hd1 by apply lookup_insert_eq.
    destruct (decide (incomplete (dict_set pct_col pct d) pct_col)) as [Hinc1|Hinc1];
      [|by eapply Hkeep].
    eexists _, _. split.
    + rewrite (ensure_percentage_column_incomplete_eq _ _ _ _ _ Hd1 Hinc1).
      unfold df_get in *. rewrite dict_get_set_ne by done.
      rewrite Hyear. simpl. by rewrite Hpct.
    + by rewrite lookup_insert_eq, Hd1, dict_set_set.
  - rewrite (ensure_percentage_column_complete_eq _ _ d) in Hrun by done.
    injection Hrun as <- <-. eapply Hkeep; [apply lookup_insert_eq|done].
Qed.

End percentages.

Lemma ensure_percentage_column_complete_witness :
  ∃ out h',
    ensure_percentage_column 1%positive (py "1999") (py "2022")
      {[ 1%positive := crime_table ]} = (Ok out, h')
    ∧ h' !! out = Some crime_table.
Proof.
  apply (ensure_percentage_column_complete _ _ _ _ _ (IntCol [30; 70]%Z)); done.
Defined.

Lemma ensure_percentage_column_fills_witness :
  ∃ out h' d',
    ensure_percentage_column 1%positive (py "2022") (py "share")
      {[ 1%positive := crime_table ]} = (Ok out, h')
    ∧ h' !! out = Some d'
    ∧ dict_keys d' = dict_keys crime_table ++ [py "share"].
Proof.
  destruct (ensure_percentage_column_fills {[ 1%positive := crime_table ]}
              1%positive crime_table (py "2022") (py "share") (IntCol [30; 70]%Z)
              (FloatCol ((λ x, fmul (fdiv (float_of_Z x) (float_of_Z 100))
                                    (float_of_Z 100)) <$> [30; 70]%Z)))
    as (out & h' & d' & Hrun & Hout & _ & _ & Hkeys); [done..|].
  by exists out, h', d'.
Defined.

Lemma ensure_percentage_column_missing_year_witness :
  (ensure_percentage_column 1%positive (py "1999") (py "percentage")
     {[ 1%positive := crime_table ]}).1 = Raise KeyError.
Proof.
  apply (ensure_percentage_column_missing_year _ _ crime_table); [done| |done].
  apply (bool_decide_unpack _). by vm_compute.
Defined.

Lemma ensure_percentage_column_idempotent_witness :
  ∃ out1 h1 out2 h2,
    ensure_percentage_column 1%positive (py "2022") (py "percentage")
      {[ 1%positive := crime_table ]} = (Ok out1, h1)
    ∧ ensure_percentage_column out1 (py "2022") (py "percentage") h1 = (Ok out2, h2)
    ∧ h2 !! out2 = h1 !! out1.
Proof.
  eexists _, _. 
  destruct (ensure_percentage_column_idempotent {[ 1%positive := crime_table ]}
    (<[2%positive := dict_set (py "percentage")
         (FloatCol ((λ x, fmul (fdiv (float_of_Z x) (float_of_Z 100))
                               (float_of_Z 100)) <$> [30; 70]%Z)) crime_table]>
       {[ 1%positive := crime_table ]})
    1%positive crime_table (py "2022") (py "percentage") 2%positive)
    as (out2 & h2 & Hrun2 & Hsame); [done|done|by vm_compute|].
  exists out2, h2. split; [by vm_compute|done].
Defined.

(** ** The percentages on the reference arithmetic *)

Lemma numpy_percentage (xs : list Z) :
  percentage (IntCol xs)
  = Ok (FloatCol ((λ x, fmul (fdiv (float_of_Z x)
                                   (float_of_Z (wrap_int64 (sum_Z xs))))
                             (float_of_Z 100)) <$> xs)).
Proof.
  unfold percentage. simpl. unfold numeric_binop. simpl.
  do 2 f_equal. rewrite <-!list_fmap_compose. by apply list_fmap_ext.
Qed.

Lemma sum_Z_zeros xs : Forall (λ x, x = 0%Z) xs → sum_Z xs = 0%Z.
Proof. induction 1 as [|x xs -> _ IH]; [done|]. simpl. by rewrite IH. Qed.

(** X22. On the reference arithmetic a year column of zeros raises nothing:
    the division by the total 0 gives NaN in every row (so the percentage
    column stays incomplete). *)
Theorem ensure_percentage_column_zero_total (h : heap) df d year_col pct_col xs :
  h !! df = Some d →
  incomplete d pct_col →
  df_get year_col d = Ok (IntCol xs) →
  Forall (λ x, x = 0%Z) xs →
  ∃ out h',
    ensure_percentage_column df year_col pct_col h = (Ok out, h')
    ∧ h' !! out = Some (dict_set pct_col (FloatCol (replicate (length xs) FNaN)) d).
Proof.
  intros Hd Hinc Hyear Hzero. eexists _, _. split.
  - rewrite (ensure_percentage_column_incomplete_eq _ _ d) by done.
    rewrite Hyear. cbn [mbind result_bind]. by rewrite numpy_percentage.
  - rewrite lookup_insert_eq. do 3 f_equal.
    rewrite (sum_Z_zeros xs) by done. clear -Hzero.
    induction Hzero as [|x xs -> _ IH]; [done|]. rewrite fmap_cons, IH. done.
Qed.

Lemma ensure_percentage_column_zero_total_witness :
  ∃ out h',
    ensure_percentage_column 1%positive (py "2022") (py "percentage")
      {[ 1%positive := idle_table ]} = (Ok out, h')
    ∧ h' !! out
      = Some (dict_set (py "percentage") (FloatCol [FNaN; FNaN]) idle_table).
Proof.
  apply (ensure_percentage_column_zero_total {[ 1%positive := idle_table ]}
           1%positive idle_table (py "2022") (py "percentage") [0; 0]%Z);
    [done..|by repeat constructor].
Defined.

Section after_load.
Context `{PyLib}.

(** X23. On a frame that [load_data] returned, [ensure_percentage_column]
    with its default column names raises nothing on the reference arithmetic:
    the column "2022" is there, of dtype int64.  The frame is returned as it
    is when the percentages are complete, and otherwise with a column
    "percentage" of floats, one for each row of "2022". *)
Theorem ensure_percentage_column_after_load
    (read_csv : pystr → result DataFrame) (path : pystr) d (h : heap) df :
  load_data read_csv path = Ok d →
  h !! df = Some d →
  ∃ out h' xs,
    ensure_percentage_column df (py "2022") (py "percentage") h = (Ok out, h')
    ∧ dict_get (py "2022") d = Some (IntCol xs)
    ∧ (¬ incomplete d (py "percentage") → h' !! out = Some d)
    ∧ (incomplete d (py "percentage") →
       ∃ pct, h' !! out = Some (dict_set (py "percentage") (FloatCol pct) d)
            ∧ length pct = length xs).
Proof.
  unfold load_data. destruct (read_csv path) as [raw|]; [|done]. simpl.
  destruct (validate SCHEMA raw true) as [df'|] eqn:Hv; [|done]. simpl.
  intros [= ->] Hd. apply validate_Ok in Hv as [Herrs ->].
  destruct (column_errors_nil (coerced SCHEMA raw) (py "2022")
      {| col_dtype := DInt; col_checks := [Ge 0]; col_nullable := false |})
      as ([xs| | |] & Hyear & ?); [apply schema_errors_nil; [done|set_solver]|try done..].
  set (d := coerced SCHEMA raw) in *.
  destruct (decide (incomplete d (py "percentage"))) as [Hinc|Hinc].
  - eexists (fresh (dom h)), _, xs.
    split_and!; [|done|done|intros _; eexists; split; [apply lookup_insert_eq|]].
    + rewrite (ensure_percentage_column_incomplete_eq _ _ d) by done.
      unfold df_get. rewrite Hyear. cbn [mbind result_bind].
      by rewrite numpy_percentage.
    + apply length_fmap.
  - exists (fresh (dom h)), (<[fresh (dom h) := d]> h), xs.
    split_and!; [|done|intros _; apply lookup_insert_eq|done].
    by rewrite (ensure_percentage_column_complete_eq _ _ d).
Qed.

End after_load.

Lemma ensure_percentage_column_after_load_witness :
  ∃ d out h' pct,
    load_data files (py "crime.csv") = Ok d
    ∧ ensure_percentage_column 1%positive (py "2022") (py "percentage")
        {[ 1%positive := d ]} = (Ok out, h')
    ∧ h' !! out = Some (dict_set (py "percentage") (FloatCol pct) d)
    ∧ length pct = 2%nat.
Proof.
  eexists.
  destruct (ensure_percentage_column_after_load files (py "crime.csv")
    [(py "Sl. No.", ObjectCol [SInt 1; SInt 2]);
     (py "State/UT", ObjectCol [SStr (py "Kerala"); SStr (py "Goa")]);
     (py "2022", IntCol [30; 70]%Z);
     (py "percentage", FloatCol [FNaN; FNaN])]
    {[ 1%positive := [(py "Sl. No.", ObjectCol [SInt 1; SInt 2]);
     (py "State/UT", ObjectCol [SStr (py "Kerala"); SStr (py "Goa")]);
     (py "2022", IntCol [30; 70]%Z);
     (py "percentage", FloatCol [FNaN; FNaN])] ]} 1%positive)
    as (out & h' & xs & Hrun & Hxs & _ & Hfill); [by vm_compute|done|].
  destruct Hfill as (pct & Hout & Hlen); [done|].
  exists out, h', pct. split_and!; [by vm_compute|done|done|].
  injection Hxs as <-. done.
Defined.
